(** * StreamContext: the stream session controller

    A shallow embedding of [src/context/StreamContext.tsx].

    - The React state [streamData] is a record; [setStreamData] is the only
      way it changes, and every call is logged as a commit so that the
      sequence of snapshots an operation goes through can be observed.
    - An [async] function is a computation in the [Async] monad: it threads
      the state, may reject with a JavaScript exception, and has [try]/[catch].
    - Whatever an [await] receives from outside (the token, the HTTP
      responses, the simulated platform round trip), the clock and the random
      comparator are inputs, collected in [Env].
    - The two timers are the callbacks [elapsed_time_ticker] and
      [status_poller], each with the guard of its effect; they are not among
      the commands of a session.
    - The functions that read [streamData] directly (not through the
      [prev =>] updater) read the snapshot their closure was rendered with;
      they take it as their first argument.  [invoke] runs an operation as a
      consumer of the latest render does: closure = current state.
    - JavaScript numbers that are counts or indices are modelled by [Z]. *)

From Stdlib Require Import ZArith String List Bool Lia.
From Stdlib Require Import DecimalString Permutation.
Import ListNotations.
Open Scope Z_scope.

(** ** JavaScript values the module relies on *)

(** Exceptions: [new Error(message)] built by this module, and the ones the
    platform raises ([fetch] rejects with a TypeError, [json()] with a
    SyntaxError). *)
Inductive Exn : Type :=
| Error (message : string)
| TypeError (message : string)
| SyntaxError (message : string).

(** A settled promise. *)
Inductive Settled (A : Type) : Type :=
| Resolved (a : A)
| Rejected (e : Exn).
Arguments Resolved {A} a.
Arguments Rejected {A} e.

(** [x || d] on an optional string: [undefined] and the empty string are
    falsy. *)
Definition or_else (x : option string) (d : string) : string :=
  match x with
  | Some EmptyString => d
  | Some s => s
  | None => d
  end.

(** [x ?? d] on an optional boolean. *)
Definition nullish (x : option bool) (d : bool) : bool :=
  match x with
  | Some b => b
  | None => d
  end.

(** Truthiness of an optional boolean. *)
Definition truthy (x : option bool) : bool :=
  match x with
  | Some b => b
  | None => false
  end.

(** [Date] as milliseconds since the epoch. *)
Definition Date : Type := Z.

(** An element of [videos: any[]]; the controller never looks inside one. *)
Definition Video : Type := Z.

(** ** Data model *)

Module StreamPlatform.

Inductive Status : Type := connected | disconnected | error | connecting.

Record t : Type := mk {
  id : string;
  name : string;
  enabled : bool;
  rtmpUrl : option string;
  streamKey : option string;
  status : Status
}.

(** One key of a [Partial<StreamPlatform>] object literal. *)
Inductive Field : Type :=
| Id (v : string)
| Name (v : string)
| Enabled (v : bool)
| RtmpUrl (v : option string)
| StreamKey (v : option string)
| Status_ (v : Status).

Definition assign (p : t) (f : Field) : t :=
  match f with
  | Id v => mk v (name p) (enabled p) (rtmpUrl p) (streamKey p) (status p)
  | Name v => mk (id p) v (enabled p) (rtmpUrl p) (streamKey p) (status p)
  | Enabled v => mk (id p) (name p) v (rtmpUrl p) (streamKey p) (status p)
  | RtmpUrl v => mk (id p) (name p) (enabled p) v (streamKey p) (status p)
  | StreamKey v => mk (id p) (name p) (enabled p) (rtmpUrl p) v (status p)
  | Status_ v => mk (id p) (name p) (enabled p) (rtmpUrl p) (streamKey p) v
  end.

(** [{ ...platform, ...config }] *)
Definition spread (p : t) (config : list Field) : t :=
  fold_left assign config p.

End StreamPlatform.

Module Playlist.

Record t : Type := mk {
  id : Z;
  name : string;
  videos : list Video;
  currentVideoIndex : Z;
  isPlaying : bool;
  loop : bool;
  shuffle : bool
}.

(** [{ ...currentPlaylist, currentVideoIndex: i }] *)
Definition with_currentVideoIndex (p : t) (i : Z) : t :=
  mk (id p) (name p) (videos p) i (isPlaying p) (loop p) (shuffle p).

(** [{ ...currentPlaylist, isPlaying: b }] *)
Definition with_isPlaying (p : t) (b : bool) : t :=
  mk (id p) (name p) (videos p) (currentVideoIndex p) b (loop p) (shuffle p).

(** [videos.length] *)
Definition length (p : t) : Z := Z.of_nat (List.length (videos p)).

End Playlist.

Module StreamData.

Inductive WowzaStatus : Type := online | offline | error.
Inductive StreamType : Type := obs | playlist | none.

Record t : Type := mk {
  isLive : bool;
  streamUrl : string;
  title : string;
  viewers : Z;
  uptime : string;
  bitrate : Z;
  startTime : option Date;
  duration : Z;
  platforms : list StreamPlatform.t;
  wowzaStatus : WowzaStatus;
  applicationName : string;
  streamName : string;
  currentPlaylist : option Playlist.t;
  streamType : StreamType
}.

(** One key of a [Partial<StreamData>] object literal.  The two optional
    fields can be given the value [undefined]. *)
Inductive Field : Type :=
| IsLive (v : bool)
| StreamUrl (v : string)
| Title (v : string)
| Viewers (v : Z)
| Uptime (v : string)
| Bitrate (v : Z)
| StartTime (v : option Date)
| Duration (v : Z)
| Platforms (v : list StreamPlatform.t)
| WowzaStatus_ (v : WowzaStatus)
| ApplicationName (v : string)
| StreamName (v : string)
| CurrentPlaylist (v : option Playlist.t)
| StreamType_ (v : StreamType).

Definition assign (s : t) (f : Field) : t :=
  match f with
  | IsLive v =>
      mk v (streamUrl s) (title s) (viewers s) (uptime s) (bitrate s)
         (startTime s) (duration s) (platforms s) (wowzaStatus s)
         (applicationName s) (streamName s) (currentPlaylist s) (streamType s)
  | StreamUrl v =>
      mk (isLive s) v (title s) (viewers s) (uptime s) (bitrate s)
         (startTime s) (duration s) (platforms s) (wowzaStatus s)
         (applicationName s) (streamName s) (currentPlaylist s) (streamType s)
  | Title v =>
      mk (isLive s) (streamUrl s) v (viewers s) (uptime s) (bitrate s)
         (startTime s) (duration s) (platforms s) (wowzaStatus s)
         (applicationName s) (streamName s) (currentPlaylist s) (streamType s)
  | Viewers v =>
      mk (isLive s) (streamUrl s) (title s) v (uptime s) (bitrate s)
         (startTime s) (duration s) (platforms s) (wowzaStatus s)
         (applicationName s) (streamName s) (currentPlaylist s) (streamType s)
  | Uptime v =>
      mk (isLive s) (streamUrl s) (title s) (viewers s) v (bitrate s)
         (startTime s) (duration s) (platforms s) (wowzaStatus s)
         (applicationName s) (streamName s) (currentPlaylist s) (streamType s)
  | Bitrate v =>
      mk (isLive s) (streamUrl s) (title s) (viewers s) (uptime s) v
         (startTime s) (duration s) (platforms s) (wowzaStatus s)
         (applicationName s) (streamName s) (currentPlaylist s) (streamType s)
  | StartTime v =>
      mk (isLive s) (streamUrl s) (title s) (viewers s) (uptime s) (bitrate s)
         v (duration s) (platforms s) (wowzaStatus s)
         (applicationName s) (streamName s) (currentPlaylist s) (streamType s)
  | Duration v =>
      mk (isLive s) (streamUrl s) (title s) (viewers s) (uptime s) (bitrate s)
         (startTime s) v (platforms s) (wowzaStatus s)
         (applicationName s) (streamName s) (currentPlaylist s) (streamType s)
  | Platforms v =>
      mk (isLive s) (streamUrl s) (title s) (viewers s) (uptime s) (bitrate s)
         (startTime s) (duration s) v (wowzaStatus s)
         (applicationName s) (streamName s) (currentPlaylist s) (streamType s)
  | WowzaStatus_ v =>
      mk (isLive s) (streamUrl s) (title s) (viewers s) (uptime s) (bitrate s)
         (startTime s) (duration s) (platforms s) v
         (applicationName s) (streamName s) (currentPlaylist s) (streamType s)
  | ApplicationName v =>
      mk (isLive s) (streamUrl s) (title s) (viewers s) (uptime s) (bitrate s)
         (startTime s) (duration s) (platforms s) (wowzaStatus s)
         v (streamName s) (currentPlaylist s) (streamType s)
  | StreamName v =>
      mk (isLive s) (streamUrl s) (title s) (viewers s) (uptime s) (bitrate s)
         (startTime s) (duration s) (platforms s) (wowzaStatus s)
         (applicationName s) v (currentPlaylist s) (streamType s)
  | CurrentPlaylist v =>
      mk (isLive s) (streamUrl s) (title s) (viewers s) (uptime s) (bitrate s)
         (startTime s) (duration s) (platforms s) (wowzaStatus s)
         (applicationName s) (streamName s) v (streamType s)
  | StreamType_ v =>
      mk (isLive s) (streamUrl s) (title s) (viewers s) (uptime s) (bitrate s)
         (startTime s) (duration s) (platforms s) (wowzaStatus s)
         (applicationName s) (streamName s) (currentPlaylist s) v
  end.

(** [{ ...prev, ...data }]: the keys of [data] are written over [prev], in
    the order of the literal. *)
Definition spread (prev : t) (data : list Field) : t :=
  fold_left assign data prev.

End StreamData.

(** ** The remote collaborator *)

Module Api.

(** A [fetch] response: the [ok] flag and what [json()] settles to. *)
Record Response (A : Type) : Type := mkResponse {
  ok : bool;
  json : Settled A
}.
Arguments mkResponse {A} ok json.
Arguments ok {A} r.
Arguments json {A} r.

(** [GET /api/playlists/:id] *)
Module PlaylistInfo.
Record t : Type := mk { nome : string }.
End PlaylistInfo.

(** An element of [GET /api/playlists/:id/videos] *)
Module PlaylistVideo.
Record t : Type := mk { videos : Video }.
End PlaylistVideo.

(** Body of [POST /api/streaming/start-internal] *)
Module StartRequest.
Record t : Type := mk {
  playlist_id : Z;
  titulo : string;
  videos : list Video;
  options_loop : bool;
  options_shuffle : bool
}.
End StartRequest.

Module StartResult.
Record t : Type := mk {
  success : bool;
  stream_url : option string;
  stream_name : option string;
  error : option string
}.
End StartResult.

(** Body of [POST /api/streaming/stop-internal] *)
Module StopRequest.
Record t : Type := mk { stream_type : StreamData.StreamType }.
End StopRequest.

Module StopResult.
Record t : Type := mk {
  success : bool;
  error : option string
}.
End StopResult.

(** [GET /api/streaming/status] *)
Module Transmission.
Record t : Type := mk {
  titulo : string;
  stats_viewers : Z;
  stats_bitrate : Z;
  stats_uptime : string
}.
End Transmission.

Module StatusResult.
Record t : Type := mk {
  success : bool;
  is_live : bool;
  transmission : option Transmission.t
}.
End StatusResult.

End Api.

(** Everything an operation receives from outside while it runs. *)
Record Env : Type := mkEnv {
  getToken : Settled string;
  fetch_playlist : Z -> string -> Settled (Api.Response Api.PlaylistInfo.t);
  fetch_playlist_videos :
    Z -> string -> Settled (Api.Response (list Api.PlaylistVideo.t));
  fetch_start_internal :
    string -> Api.StartRequest.t -> Settled (Api.Response Api.StartResult.t);
  fetch_stop_internal :
    string -> Api.StopRequest.t -> Settled (Api.Response Api.StopResult.t);
  fetch_status : string -> Settled (Api.Response Api.StatusResult.t);
  (** [arr.sort(() => Math.random() - 0.5)] *)
  random_sort : list Video -> list Video;
  (** [new Date()] *)
  new_Date : Date
}.

(** ** Asynchronous computations over the React state *)

Record Run (A : Type) : Type := mkRun {
  outcome : Settled A;
  final : StreamData.t;
  commits : list StreamData.t
}.
Arguments mkRun {A} outcome final commits.
Arguments outcome {A} r.
Arguments final {A} r.
Arguments commits {A} r.

Definition Async (A : Type) : Type := StreamData.t -> Run A.

Definition ret {A : Type} (a : A) : Async A :=
  fun s => mkRun (Resolved a) s [].

Definition throw {A : Type} (e : Exn) : Async A :=
  fun s => mkRun (Rejected e) s [].

Definition bind {A B : Type} (m : Async A) (k : A -> Async B) : Async B :=
  fun s =>
    let r := m s in
    match outcome r with
    | Resolved a =>
        let r' := k a (final r) in
        mkRun (outcome r') (final r') (commits r ++ commits r')
    | Rejected e => mkRun (Rejected e) (final r) (commits r)
    end.

(** [await p] for a promise settled by the outside world. *)
Definition await {A : Type} (p : Settled A) : Async A :=
  fun s => mkRun p s [].

(** [try { m } catch (error) { h error }] *)
Definition try_catch {A : Type} (m : Async A) (h : Exn -> Async A) : Async A :=
  fun s =>
    let r := m s in
    match outcome r with
    | Resolved a => r
    | Rejected e =>
        let r' := h e (final r) in
        mkRun (outcome r') (final r') (commits r ++ commits r')
    end.

(** A call of an async function whose promise is dropped: its effects
    happen, its rejection reaches nobody. *)
Definition detach {A : Type} (m : Async A) : Async unit :=
  fun s =>
    let r := m s in
    mkRun (Resolved tt) (final r) (commits r).

(** [setStreamData(prev => f(prev))] *)
Definition setStreamData (f : StreamData.t -> StreamData.t) : Async unit :=
  fun s => mkRun (Resolved tt) (f s) [f s].

Declare Scope async_scope.
Delimit Scope async_scope with async.
Notation "x <- m ;; k" := (bind m (fun x => k))
  (at level 61, m at next level, right associativity) : async_scope.
Notation "m ;;; k" := (bind m (fun _ => k))
  (at level 61, right associativity) : async_scope.
Open Scope async_scope.

(** ** The provider *)

Definition defaultPlatforms : list StreamPlatform.t :=
  let entry id name :=
    StreamPlatform.mk id name false None None StreamPlatform.disconnected in
  [ entry "youtube" "YouTube";
    entry "instagram" "Instagram";
    entry "facebook" "Facebook";
    entry "twitch" "Twitch";
    entry "vimeo" "Vimeo";
    entry "tiktok" "TikTok";
    entry "periscope" "Periscope";
    entry "kwai" "Kwai";
    entry "steam" "Steam Valve";
    entry "rtmp" "RTMP Próprio" ]%string.

(** The argument of [useState]. *)
Definition initialStreamData : StreamData.t := {|
  StreamData.isLive := false;
  StreamData.streamUrl := EmptyString;
  StreamData.title := EmptyString;
  StreamData.viewers := 0;
  StreamData.uptime := "00:00:00";
  StreamData.bitrate := 0;
  StreamData.startTime := None;
  StreamData.duration := 0;
  StreamData.platforms := defaultPlatforms;
  StreamData.wowzaStatus := StreamData.offline;
  StreamData.applicationName := "live";
  StreamData.streamName := EmptyString;
  StreamData.currentPlaylist := None;
  StreamData.streamType := StreamData.none
|}.

Definition updateStreamData (data : list StreamData.Field) : Async unit :=
  setStreamData (fun prev => StreamData.spread prev data).

Definition updatePlatformConfig
    (platformId : string) (config : list StreamPlatform.Field) : Async unit :=
  setStreamData (fun prev =>
    StreamData.spread prev
      [ StreamData.Platforms
          (map (fun platform =>
                  if String.eqb (StreamPlatform.id platform) platformId
                  then StreamPlatform.spread platform config
                  else platform)
               (StreamData.platforms prev)) ]).

(** The source awaits [new Promise(resolve => setTimeout(resolve, ms))], a
    stand-in for the platform round trip that always resolves. *)
Definition simulated_round_trip : Settled unit := Resolved tt.

(** [round_trip] is what the awaited promise settles to. *)
Definition connectToPlatform
    (round_trip : Settled unit) (platformId : string) : Async unit :=
  updatePlatformConfig platformId
    [StreamPlatform.Status_ StreamPlatform.connecting] ;;;
  try_catch
    (await round_trip ;;;
     updatePlatformConfig platformId
       [StreamPlatform.Status_ StreamPlatform.connected])
    (fun error =>
       updatePlatformConfig platformId
         [StreamPlatform.Status_ StreamPlatform.error] ;;;
       throw error).

Definition disconnectFromPlatform
    (round_trip : Settled unit) (platformId : string) : Async unit :=
  try_catch
    (await round_trip ;;;
     updatePlatformConfig platformId
       [StreamPlatform.Status_ StreamPlatform.disconnected])
    (fun error =>
       updatePlatformConfig platformId
         [StreamPlatform.Status_ StreamPlatform.error] ;;;
       throw error).

(** The [options] argument, [{ loop?: boolean; shuffle?: boolean }]. *)
Record StartOptions : Type := mkStartOptions {
  opt_loop : option bool;
  opt_shuffle : option bool
}.

(** The default value of the parameter, [{}]. *)
Definition no_options : StartOptions := mkStartOptions None None.

Definition startPlaylistStream
    (env : Env) (playlistId : Z) (options : StartOptions) : Async unit :=
  try_catch
    (token <- await (getToken env) ;;
     playlistResponse <- await (fetch_playlist env playlistId token) ;;
     if negb (Api.ok playlistResponse)
     then throw (Error "Playlist não encontrada")
     else
     playlist <- await (Api.json playlistResponse) ;;
     videosResponse <- await (fetch_playlist_videos env playlistId token) ;;
     if negb (Api.ok videosResponse)
     then throw (Error "Erro ao carregar vídeos da playlist")
     else
     playlistVideos <- await (Api.json videosResponse) ;;
     let videos := map Api.PlaylistVideo.videos playlistVideos in
     if Z.of_nat (length videos) =? 0
     then throw (Error "Playlist não possui vídeos")
     else
     let finalVideos :=
       if truthy (opt_shuffle options) then random_sort env videos else videos in
     response <- await (fetch_start_internal env token {|
         Api.StartRequest.playlist_id := playlistId;
         Api.StartRequest.titulo := Api.PlaylistInfo.nome playlist;
         Api.StartRequest.videos := finalVideos;
         Api.StartRequest.options_loop := nullish (opt_loop options) true;
         Api.StartRequest.options_shuffle := nullish (opt_shuffle options) false
       |}) ;;
     result <- await (Api.json response) ;;
     if Api.StartResult.success result
     then
       updateStreamData
         [ StreamData.IsLive true;
           StreamData.StreamUrl
             (or_else (Api.StartResult.stream_url result) EmptyString);
           StreamData.StreamName
             (or_else (Api.StartResult.stream_name result) EmptyString);
           StreamData.Title (Api.PlaylistInfo.nome playlist);
           StreamData.StartTime (Some (new_Date env));
           StreamData.Viewers 0;
           StreamData.Bitrate 2500;
           StreamData.WowzaStatus_ StreamData.online;
           StreamData.StreamType_ StreamData.playlist;
           StreamData.CurrentPlaylist (Some {|
             Playlist.id := playlistId;
             Playlist.name := Api.PlaylistInfo.nome playlist;
             Playlist.videos := finalVideos;
             Playlist.currentVideoIndex := 0;
             Playlist.isPlaying := true;
             Playlist.loop := nullish (opt_loop options) true;
             Playlist.shuffle := nullish (opt_shuffle options) false
           |}) ]
     else
       throw (Error (or_else (Api.StartResult.error result)
                             "Erro ao iniciar playlist")))
    (fun error => throw error).

(** [streamData] is the snapshot the closure was rendered with; only its
    [streamType] is read, for the request body. *)
Definition stopStream (env : Env) (streamData : StreamData.t) : Async unit :=
  try_catch
    (token <- await (getToken env) ;;
     response <- await (fetch_stop_internal env token {|
         Api.StopRequest.stream_type := StreamData.streamType streamData
       |}) ;;
     result <- await (Api.json response) ;;
     if Api.StopResult.success result
     then
       updateStreamData
         [ StreamData.IsLive false;
           StreamData.StreamUrl EmptyString;
           StreamData.Viewers 0;
           StreamData.Uptime "00:00:00";
           StreamData.Bitrate 0;
           StreamData.Duration 0;
           StreamData.StartTime None;
           StreamData.WowzaStatus_ StreamData.offline;
           StreamData.StreamName EmptyString;
           StreamData.StreamType_ StreamData.none;
           StreamData.CurrentPlaylist None ]
     else
       throw (Error (or_else (Api.StopResult.error result)
                             "Erro ao parar transmissão")))
    (fun error => throw error).

Definition refreshStreamStatus (env : Env) : Async unit :=
  try_catch
    (token <- await (getToken env) ;;
     response <- await (fetch_status env token) ;;
     result <- await (Api.json response) ;;
     match
       (if Api.StatusResult.success result && Api.StatusResult.is_live result
        then Api.StatusResult.transmission result
        else None)
     with
     | Some transmission =>
         updateStreamData
           [ StreamData.IsLive true;
             StreamData.Viewers (Api.Transmission.stats_viewers transmission);
             StreamData.Bitrate (Api.Transmission.stats_bitrate transmission);
             StreamData.Uptime (Api.Transmission.stats_uptime transmission);
             StreamData.Title (Api.Transmission.titulo transmission);
             StreamData.WowzaStatus_ StreamData.online ]
     | None =>
         updateStreamData
           [ StreamData.IsLive false;
             StreamData.Viewers 0;
             StreamData.Bitrate 0;
             StreamData.Uptime "00:00:00";
             StreamData.WowzaStatus_ StreamData.offline ]
     end)
    (fun error => updateStreamData [StreamData.WowzaStatus_ StreamData.error]).

(** [stopStream()] is called without [await]: see [detach]. *)
Definition nextVideo (env : Env) (streamData : StreamData.t) : Async unit :=
  match StreamData.currentPlaylist streamData with
  | None => ret tt
  | Some currentPlaylist =>
      let nextIndex := Playlist.currentVideoIndex currentPlaylist + 1 in
      if nextIndex >=? Playlist.length currentPlaylist
      then
        if Playlist.loop currentPlaylist
        then
          updateStreamData
            [ StreamData.CurrentPlaylist
                (Some (Playlist.with_currentVideoIndex currentPlaylist 0)) ]
        else detach (stopStream env streamData)
      else
        updateStreamData
          [ StreamData.CurrentPlaylist
              (Some (Playlist.with_currentVideoIndex currentPlaylist nextIndex)) ]
  end.

Definition previousVideo (streamData : StreamData.t) : Async unit :=
  match StreamData.currentPlaylist streamData with
  | None => ret tt
  | Some currentPlaylist =>
      let prevIndex := Playlist.currentVideoIndex currentPlaylist - 1 in
      let prevIndex :=
        if prevIndex <? 0 then Playlist.length currentPlaylist - 1
        else prevIndex in
      updateStreamData
        [ StreamData.CurrentPlaylist
            (Some (Playlist.with_currentVideoIndex currentPlaylist prevIndex)) ]
  end.

Definition playVideo (index : Z) (streamData : StreamData.t) : Async unit :=
  match StreamData.currentPlaylist streamData with
  | None => ret tt
  | Some currentPlaylist =>
      if (index >=? 0) && (index <? Playlist.length currentPlaylist)
      then
        updateStreamData
          [ StreamData.CurrentPlaylist
              (Some (Playlist.with_currentVideoIndex currentPlaylist index)) ]
      else ret tt
  end.

Definition togglePlayPause (streamData : StreamData.t) : Async unit :=
  match StreamData.currentPlaylist streamData with
  | None => ret tt
  | Some currentPlaylist =>
      updateStreamData
        [ StreamData.CurrentPlaylist
            (Some (Playlist.with_isPlaying currentPlaylist
                     (negb (Playlist.isPlaying currentPlaylist)))) ]
  end.

(** An operation called from the latest render: the snapshot in its closure
    is the current state. *)
Definition invoke {A : Type} (op : StreamData.t -> Async A) : Async A :=
  fun s => op s s.

(** ** Sessions: sequences of operations *)

(** The operations a consumer of the context can call, each with what the
    outside world answers while it runs.  ([updateStreamData], which writes
    any partial snapshot it is handed, is not among them.) *)
Inductive Command : Type :=
| StartPlaylistStream (env : Env) (playlistId : Z) (options : StartOptions)
| StopStream (env : Env)
| RefreshStreamStatus (env : Env)
| NextVideo (env : Env)
| PreviousVideo
| PlayVideo (index : Z)
| TogglePlayPause
| UpdatePlatformConfig (platformId : string) (config : list StreamPlatform.Field)
| ConnectToPlatform (round_trip : Settled unit) (platformId : string)
| DisconnectFromPlatform (round_trip : Settled unit) (platformId : string).

Definition perform (c : Command) : Async unit :=
  match c with
  | StartPlaylistStream env playlistId options =>
      startPlaylistStream env playlistId options
  | StopStream env => invoke (stopStream env)
  | RefreshStreamStatus env => refreshStreamStatus env
  | NextVideo env => invoke (nextVideo env)
  | PreviousVideo => invoke previousVideo
  | PlayVideo index => invoke (playVideo index)
  | TogglePlayPause => invoke togglePlayPause
  | UpdatePlatformConfig platformId config =>
      updatePlatformConfig platformId config
  | ConnectToPlatform round_trip platformId =>
      connectToPlatform round_trip platformId
  | DisconnectFromPlatform round_trip platformId =>
      disconnectFromPlatform round_trip platformId
  end.

(** The snapshots a consumer can observe: the initial one, and every
    snapshot committed while a command runs from an observable one. *)
Inductive reachable : StreamData.t -> Prop :=
| reach_initial : reachable initialStreamData
| reach_commit (s : StreamData.t) (c : Command) (s' : StreamData.t) :
    reachable s -> In s' (commits (perform c s)) -> reachable s'
| reach_final (s : StreamData.t) (c : Command) :
    reachable s -> reachable (final (perform c s)).

(** ** Predicates and derived notions *)

Definition present {A : Type} (x : option A) : Prop := x <> None.

(** The presence invariant as the data model words it. *)
Definition presence_invariant (s : StreamData.t) : Prop :=
  (present (StreamData.currentPlaylist s)
   <-> StreamData.streamType s = StreamData.playlist)
  /\ (present (StreamData.startTime s) <-> StreamData.isLive s = true).

(** What the operations maintain: the playback state and the start time
    both go with the session kind. *)
Definition session_invariant (s : StreamData.t) : Prop :=
  (present (StreamData.currentPlaylist s)
   <-> StreamData.streamType s = StreamData.playlist)
  /\ (present (StreamData.startTime s)
      <-> StreamData.streamType s = StreamData.playlist).

(** [currentVideoIndex] is an index into [videos]. *)
Definition valid_index (p : Playlist.t) : Prop :=
  0 <= Playlist.currentVideoIndex p < Playlist.length p.

(** The status of the platform registered under [platformId]. *)
Definition platform_status
    (platformId : string) (s : StreamData.t) : option StreamPlatform.Status :=
  option_map StreamPlatform.status
    (find (fun platform => String.eqb (StreamPlatform.id platform) platformId)
          (StreamData.platforms s)).

(** What the stop endpoint answers to [stopStream]: the chain of awaits up
    to the parsed body. *)
Definition stop_reply
    (env : Env) (streamType : StreamData.StreamType)
    : Settled Api.StopResult.t :=
  match getToken env with
  | Rejected e => Rejected e
  | Resolved token =>
      match
        fetch_stop_internal env token
          {| Api.StopRequest.stream_type := streamType |}
      with
      | Rejected e => Rejected e
      | Resolved response => Api.json response
      end
  end.

(** What the status endpoint answers to [refreshStreamStatus]. *)
Definition status_reply (env : Env) : Settled Api.StatusResult.t :=
  match getToken env with
  | Rejected e => Rejected e
  | Resolved token =>
      match fetch_status env token with
      | Rejected e => Rejected e
      | Resolved response => Api.json response
      end
  end.

(** The idle baseline written by a successful stop. *)
Definition stopped (s : StreamData.t) : StreamData.t :=
  StreamData.spread s
    [ StreamData.IsLive false;
      StreamData.StreamUrl EmptyString;
      StreamData.Viewers 0;
      StreamData.Uptime "00:00:00";
      StreamData.Bitrate 0;
      StreamData.Duration 0;
      StreamData.StartTime None;
      StreamData.WowzaStatus_ StreamData.offline;
      StreamData.StreamName EmptyString;
      StreamData.StreamType_ StreamData.none;
      StreamData.CurrentPlaylist None ].

(** A 2xx response whose body parses to [body]. *)
Definition respond {A : Type} (body : A) : Settled (Api.Response A) :=
  Resolved (Api.mkResponse true (Resolved body)).

(** The spec's names for the errors, which the source builds with
    [new Error(message)]. *)
Definition NotFoundError : Exn := Error "Playlist não encontrada".
Definition EmptyPlaylistError : Exn := Error "Playlist não possui vídeos".
Definition StreamStartError (reason : string) : Exn := Error reason.
Definition StreamStopError (reason : string) : Exn := Error reason.

(** The body of the start request, as [startPlaylistStream] builds it from
    the loaded playlist. *)
Definition start_request
    (env : Env) (playlistId : Z) (options : StartOptions)
    (playlist : Api.PlaylistInfo.t) (playlistVideos : list Api.PlaylistVideo.t)
    : Api.StartRequest.t := {|
  Api.StartRequest.playlist_id := playlistId;
  Api.StartRequest.titulo := Api.PlaylistInfo.nome playlist;
  Api.StartRequest.videos :=
    (let videos := map Api.PlaylistVideo.videos playlistVideos in
     if truthy (opt_shuffle options) then random_sort env videos else videos);
  Api.StartRequest.options_loop := nullish (opt_loop options) true;
  Api.StartRequest.options_shuffle := nullish (opt_shuffle options) false
|}.

(** Both lookups of [startPlaylistStream] answered with a 2xx status and a
    body that parses. *)
Definition playlist_loaded
    (env : Env) (playlistId : Z) (token : string)
    (playlist : Api.PlaylistInfo.t) (playlistVideos : list Api.PlaylistVideo.t)
    : Prop :=
  getToken env = Resolved token
  /\ fetch_playlist env playlistId token = respond playlist
  /\ fetch_playlist_videos env playlistId token = respond playlistVideos.

(** The snapshot the not-live branch of the poll writes. *)
Definition forced_offline (s : StreamData.t) : StreamData.t :=
  StreamData.spread s
    [ StreamData.IsLive false;
      StreamData.Viewers 0;
      StreamData.Bitrate 0;
      StreamData.Uptime "00:00:00";
      StreamData.WowzaStatus_ StreamData.offline ].

(** The snapshot [updatePlatformConfig] leaves when it writes a status. *)
Definition with_status
    (platformId : string) (status : StreamPlatform.Status) (s : StreamData.t)
    : StreamData.t :=
  final (updatePlatformConfig platformId [StreamPlatform.Status_ status] s).

(** Where a connect or a disconnect lands. *)
Definition landed {A : Type}
    (round_trip : Settled A) (on_success : StreamPlatform.Status)
    : StreamPlatform.Status :=
  match round_trip with
  | Resolved _ => on_success
  | Rejected _ => StreamPlatform.error
  end.

(** The snapshot an operation leaves when called from the latest render. *)
Definition after (c : Command) (s : StreamData.t) : StreamData.t :=
  final (perform c s).

(** [m] keeps [P]: run from a snapshot satisfying [P], every snapshot it
    commits and the one it ends in satisfy [P]. *)
Definition keeps {A : Type} (P : StreamData.t -> Prop) (m : Async A) : Prop :=
  forall s, P s -> P (final (m s)) /\ Forall P (commits (m s)).

(** ** Sample worlds, used to run the operations on concrete inputs *)

(** A server that holds playlist 7 with three videos and accepts every
    request; its status endpoint reports the stream as live. *)
Definition env_accepting : Env := {|
  getToken := Resolved "token"%string;
  fetch_playlist := fun _ _ => respond (Api.PlaylistInfo.mk "Matinal");
  fetch_playlist_videos := fun _ _ =>
    respond [Api.PlaylistVideo.mk 11; Api.PlaylistVideo.mk 12;
             Api.PlaylistVideo.mk 13];
  fetch_start_internal := fun _ _ =>
    respond (Api.StartResult.mk true (Some "rtmp://host/live/s7"%string)
                                (Some "s7"%string) None);
  fetch_stop_internal := fun _ _ => respond (Api.StopResult.mk true None);
  fetch_status := fun _ =>
    respond (Api.StatusResult.mk true true
               (Some (Api.Transmission.mk "Matinal" 120 3000 "00:05:00")));
  random_sort := fun videos => rev videos;
  new_Date := 1700000000000
|}.

(** The same server refusing to start or stop, and reporting not-live. *)
Definition env_refusing : Env := {|
  getToken := Resolved "token"%string;
  fetch_playlist := fetch_playlist env_accepting;
  fetch_playlist_videos := fetch_playlist_videos env_accepting;
  fetch_start_internal := fun _ _ =>
    respond (Api.StartResult.mk false None None (Some "Wowza ocupado"%string));
  fetch_stop_internal := fun _ _ =>
    respond (Api.StopResult.mk false (Some "Wowza ocupado"%string));
  fetch_status := fun _ => respond (Api.StatusResult.mk true false None);
  random_sort := random_sort env_accepting;
  new_Date := 1700000000000
|}.

(** No network: every [fetch] rejects. *)
Definition env_offline : Env := {|
  getToken := Resolved "token"%string;
  fetch_playlist := fun _ _ => Rejected (TypeError "Failed to fetch");
  fetch_playlist_videos := fun _ _ => Rejected (TypeError "Failed to fetch");
  fetch_start_internal := fun _ _ => Rejected (TypeError "Failed to fetch");
  fetch_stop_internal := fun _ _ => Rejected (TypeError "Failed to fetch");
  fetch_status := fun _ => Rejected (TypeError "Failed to fetch");
  random_sort := fun videos => videos;
  new_Date := 1700000000000
|}.

(** Playlist 7 playing its last video, without loop. *)
Definition last_video_no_loop : Playlist.t := {|
  Playlist.id := 7;
  Playlist.name := "Matinal";
  Playlist.videos := [11; 12; 13];
  Playlist.currentVideoIndex := 2;
  Playlist.isPlaying := true;
  Playlist.loop := false;
  Playlist.shuffle := false
|}.

(** The snapshot after playlist 7 was started on [env_accepting]. *)
Definition playing_7 : StreamData.t :=
  final (startPlaylistStream env_accepting 7 no_options initialStreamData).

(** [playing_7] with the playback state replaced by [p]. *)
Definition playing (p : Playlist.t) : StreamData.t :=
  StreamData.spread playing_7 [StreamData.CurrentPlaylist (Some p)].

(** The server of [env_accepting] answering live without a transmission. *)
Definition env_live_without_transmission : Env := {|
  getToken := getToken env_accepting;
  fetch_playlist := fetch_playlist env_accepting;
  fetch_playlist_videos := fetch_playlist_videos env_accepting;
  fetch_start_internal := fetch_start_internal env_accepting;
  fetch_stop_internal := fetch_stop_internal env_accepting;
  fetch_status := fun _ => respond (Api.StatusResult.mk true true None);
  random_sort := random_sort env_accepting;
  new_Date := new_Date env_accepting
|}.

(** The snapshot of a page opened while a stream is already live: the first
    status poll has run on the initial state. *)
Definition joined_live_stream : StreamData.t :=
  final (perform (RefreshStreamStatus env_accepting) initialStreamData).

(** ** The two timers *)

(** [n.toString()] for an integral number. *)
Definition toString (n : Z) : string := NilZero.string_of_int (Z.to_int n).

(** [s.padStart(targetLength, '0')] *)
Definition padStart_0 (targetLength : nat) (s : string) : string :=
  String.concat EmptyString
    (repeat "0"%string (targetLength - String.length s))
  ++ s.

(** The [HH:MM:SS] text of the ticker. *)
Definition clock (hours minutes seconds : Z) : string :=
  (padStart_0 2 (toString hours) ++ ":"
   ++ padStart_0 2 (toString minutes) ++ ":"
   ++ padStart_0 2 (toString seconds))%string.

(** One firing of the 1 s interval, at the date [now].  The effect sets the
    interval up only when [isLive] and [startTime] are there, and is re-run
    whenever one of the two changes; [%] is the remainder that takes the sign
    of the dividend, and [Math.floor] of a quotient is [Z.div]. *)
Definition elapsed_time_ticker
    (now : Date) (streamData : StreamData.t) : Async unit :=
  match
    (if StreamData.isLive streamData
     then StreamData.startTime streamData
     else None)
  with
  | None => ret tt
  | Some startTime =>
      let diff := now - startTime in
      let hours := diff / (1000 * 60 * 60) in
      let minutes := Z.rem diff (1000 * 60 * 60) / (1000 * 60) in
      let seconds := Z.rem diff (1000 * 60) / 1000 in
      let uptime := clock hours minutes seconds in
      let duration := diff / 1000 in
      updateStreamData [StreamData.Uptime uptime; StreamData.Duration duration]
  end.

(** One firing of the 10 s interval, which exists only while [isLive]. *)
Definition status_poller (env : Env) (streamData : StreamData.t) : Async unit :=
  if negb (StreamData.isLive streamData)
  then ret tt
  else refreshStreamStatus env.

(** ** Further notions *)

(** The playback state, when there is one, has a valid index. *)
Definition playback_valid (s : StreamData.t) : Prop :=
  forall p, StreamData.currentPlaylist s = Some p -> valid_index p.

(** [sort] with whatever comparator returns the elements it was given. *)
Definition sort_permutes (env : Env) : Prop :=
  forall videos, Permutation (random_sort env videos) videos.

(** A command whose world sorts as [Array.prototype.sort] does. *)
Definition plausible (c : Command) : Prop :=
  match c with
  | StartPlaylistStream env _ _ => sort_permutes env
  | _ => True
  end.

(** [reachable], restricted to plausible commands. *)
Inductive reachable_plausibly : StreamData.t -> Prop :=
| plausibly_initial : reachable_plausibly initialStreamData
| plausibly_commit (s : StreamData.t) (c : Command) (s' : StreamData.t) :
    reachable_plausibly s -> plausible c ->
    In s' (commits (perform c s)) -> reachable_plausibly s'
| plausibly_final (s : StreamData.t) (c : Command) :
    reachable_plausibly s -> plausible c ->
    reachable_plausibly (final (perform c s)).

(** [n] calls of an operation, each from the latest render. *)
Definition repeatedly (n : nat) (c : Command) (s : StreamData.t)
    : StreamData.t :=
  Nat.iter n (after c) s.

(** The snapshot with the playback state [p] put at index [i]. *)
Definition moved_to (s : StreamData.t) (p : Playlist.t) (i : Z)
    : StreamData.t :=
  StreamData.spread s
    [StreamData.CurrentPlaylist (Some (Playlist.with_currentVideoIndex p i))].

(** What no operation ever writes. *)
Definition fixed_part (s : StreamData.t) : Prop :=
  StreamData.streamType s <> StreamData.obs
  /\ StreamData.applicationName s = "live"%string
  /\ length (StreamData.platforms s) = 10%nat.

(** The snapshot a successful start writes. *)
Definition started
    (env : Env) (playlistId : Z) (options : StartOptions)
    (playlist : Api.PlaylistInfo.t) (playlistVideos : list Api.PlaylistVideo.t)
    (result : Api.StartResult.t) (s : StreamData.t) : StreamData.t :=
  StreamData.spread s
    [ StreamData.IsLive true;
      StreamData.StreamUrl
        (or_else (Api.StartResult.stream_url result) EmptyString);
      StreamData.StreamName
        (or_else (Api.StartResult.stream_name result) EmptyString);
      StreamData.Title (Api.PlaylistInfo.nome playlist);
      StreamData.StartTime (Some (new_Date env));
      StreamData.Viewers 0;
      StreamData.Bitrate 2500;
      StreamData.WowzaStatus_ StreamData.online;
      StreamData.StreamType_ StreamData.playlist;
      StreamData.CurrentPlaylist (Some {|
        Playlist.id := playlistId;
        Playlist.name := Api.PlaylistInfo.nome playlist;
        Playlist.videos :=
          Api.StartRequest.videos
            (start_request env playlistId options playlist playlistVideos);
        Playlist.currentVideoIndex := 0;
        Playlist.isPlaying := true;
        Playlist.loop := nullish (opt_loop options) true;
        Playlist.shuffle := nullish (opt_shuffle options) false
      |}) ].

(** The live branch of the poll: the snapshot it writes. *)
Definition overlaid (transmission : Api.Transmission.t) (s : StreamData.t)
    : StreamData.t :=
  StreamData.spread s
    [ StreamData.IsLive true;
      StreamData.Viewers (Api.Transmission.stats_viewers transmission);
      StreamData.Bitrate (Api.Transmission.stats_bitrate transmission);
      StreamData.Uptime (Api.Transmission.stats_uptime transmission);
      StreamData.Title (Api.Transmission.titulo transmission);
      StreamData.WowzaStatus_ StreamData.online ].

(** A platform entry of the list, looked up by id. *)
Definition platform_entry
    (platformId : string) (s : StreamData.t) : option StreamPlatform.t :=
  find (fun platform => String.eqb (StreamPlatform.id platform) platformId)
       (StreamData.platforms s).

(** [s'] is [s] but for its platform list. *)
Definition only_platforms_differ (s s' : StreamData.t) : Prop :=
  StreamData.spread s' [StreamData.Platforms (StreamData.platforms s)] = s.

(** The config leaves the id alone. *)
Definition keeps_id (config : list StreamPlatform.Field) : Prop :=
  forall v, ~ In (StreamPlatform.Id v) config.

(** Playlist 7 on a loop, at its second video. *)
Definition second_video_loop : Playlist.t := {|
  Playlist.id := 7;
  Playlist.name := "Matinal";
  Playlist.videos := [11; 12; 13];
  Playlist.currentVideoIndex := 1;
  Playlist.isPlaying := true;
  Playlist.loop := true;
  Playlist.shuffle := false
|}.

(** The server of [env_accepting] answering the video lookup with a 500. *)
Definition env_videos_unavailable : Env := {|
  getToken := getToken env_accepting;
  fetch_playlist := fetch_playlist env_accepting;
  fetch_playlist_videos := fun _ _ =>
    Resolved (Api.mkResponse false (Rejected (SyntaxError "Unexpected token")));
  fetch_start_internal := fetch_start_internal env_accepting;
  fetch_stop_internal := fetch_stop_internal env_accepting;
  fetch_status := fetch_status env_accepting;
  random_sort := random_sort env_accepting;
  new_Date := new_Date env_accepting
|}.

(** The server of [env_accepting] out of reach when the start request is
    sent: the lookups are answered, the start request is not. *)
Definition env_start_unreachable : Env := {|
  getToken := getToken env_accepting;
  fetch_playlist := fetch_playlist env_accepting;
  fetch_playlist_videos := fetch_playlist_videos env_accepting;
  fetch_start_internal := fun _ _ => Rejected (TypeError "Failed to fetch");
  fetch_stop_internal := fetch_stop_internal env_accepting;
  fetch_status := fetch_status env_accepting;
  random_sort := random_sort env_accepting;
  new_Date := new_Date env_accepting
|}.

(** ** Reasoning about [Async] computations *)

Section Keeps.

Variable P : StreamData.t -> Prop.

Lemma keeps_ret {A : Type} (a : A) : keeps P (ret a).
Proof. intros s Hs; split; [exact Hs | constructor]. Qed.

Lemma keeps_throw {A : Type} (e : Exn) : keeps P (@throw A e).
Proof. intros s Hs; split; [exact Hs | constructor]. Qed.

Lemma keeps_await {A : Type} (p : Settled A) : keeps P (await p).
Proof. intros s Hs; split; [exact Hs | constructor]. Qed.

Lemma keeps_setStreamData (f : StreamData.t -> StreamData.t) :
  (forall s, P s -> P (f s)) -> keeps P (setStreamData f).
Proof.
  intros Hf s Hs; cbn; split; [auto | constructor; auto].
Qed.

Lemma keeps_updateStreamData (data : list StreamData.Field) :
  (forall s, P s -> P (StreamData.spread s data)) ->
  keeps P (updateStreamData data).
Proof. intros Hf; apply keeps_setStreamData; exact Hf. Qed.

Lemma keeps_bind {A B : Type} (m : Async A) (k : A -> Async B) :
  keeps P m -> (forall a, keeps P (k a)) -> keeps P (bind m k).
Proof.
  intros Hm Hk s Hs. unfold bind.
  destruct (Hm s Hs) as [Hfin Hcom].
  destruct (outcome (m s)) as [a | e]; cbn.
  - destruct (Hk a _ Hfin) as [Hfin' Hcom'].
    split; [exact Hfin' | apply Forall_app; split; assumption].
  - split; assumption.
Qed.

Lemma keeps_try_catch {A : Type} (m : Async A) (h : Exn -> Async A) :
  keeps P m -> (forall e, keeps P (h e)) -> keeps P (try_catch m h).
Proof.
  intros Hm Hh s Hs. unfold try_catch.
  destruct (Hm s Hs) as [Hfin Hcom].
  destruct (outcome (m s)) as [a | e]; cbn.
  - split; assumption.
  - destruct (Hh e _ Hfin) as [Hfin' Hcom'].
    split; [exact Hfin' | apply Forall_app; split; assumption].
Qed.

Lemma keeps_detach {A : Type} (m : Async A) : keeps P m -> keeps P (detach m).
Proof. intros Hm s Hs; exact (Hm s Hs). Qed.

End Keeps.

(** Takes an [Async] term apart along its control structure. *)
Ltac keeps_structure :=
  repeat match goal with
    | |- keeps _ (ret _) => apply keeps_ret
    | |- keeps _ (throw _) => apply keeps_throw
    | |- keeps _ (await _) => apply keeps_await
    | |- keeps _ (detach _) => apply keeps_detach
    | |- keeps _ (try_catch _ _) => apply keeps_try_catch; [ | intros ? ]
    | |- keeps _ (bind _ _) => apply keeps_bind; [ | intros ? ]
    | |- keeps _ (if ?b then _ else _) => destruct b
    | |- keeps _ (match ?x with Some _ => _ | None => _ end) => destruct x
    end.

Lemma updatePlatformConfig_keeps_session_invariant platformId config :
  keeps session_invariant (updatePlatformConfig platformId config).
Proof.
  apply keeps_setStreamData. intros s Hs. exact Hs.
Qed.

Lemma startPlaylistStream_keeps_session_invariant env playlistId options :
  keeps session_invariant (startPlaylistStream env playlistId options).
Proof.
  unfold startPlaylistStream. keeps_structure.
  apply keeps_updateStreamData. intros s _.
  unfold session_invariant, present; cbn.
  split; split; intros _; congruence.
Qed.

Lemma stopStream_keeps_session_invariant env streamData :
  keeps session_invariant (stopStream env streamData).
Proof.
  unfold stopStream. keeps_structure.
  apply keeps_updateStreamData. intros s _.
  unfold session_invariant, present; cbn.
  split; split; intros H; congruence.
Qed.

Lemma refreshStreamStatus_keeps_session_invariant env :
  keeps session_invariant (refreshStreamStatus env).
Proof.
  unfold refreshStreamStatus. keeps_structure;
    apply keeps_updateStreamData; intros s Hs; exact Hs.
Qed.

Lemma connectToPlatform_keeps_session_invariant round_trip platformId :
  keeps session_invariant (connectToPlatform round_trip platformId).
Proof.
  unfold connectToPlatform.
  keeps_structure; apply updatePlatformConfig_keeps_session_invariant.
Qed.

Lemma disconnectFromPlatform_keeps_session_invariant round_trip platformId :
  keeps session_invariant (disconnectFromPlatform round_trip platformId).
Proof.
  unfold disconnectFromPlatform.
  keeps_structure; apply updatePlatformConfig_keeps_session_invariant.
Qed.

(** Replacing a playback state that is there by another one. *)
Lemma replace_playlist_keeps_session_invariant (s : StreamData.t) (p : Playlist.t) :
  session_invariant s ->
  present (StreamData.currentPlaylist s) ->
  let r := updateStreamData [StreamData.CurrentPlaylist (Some p)] s in
  session_invariant (final r) /\ Forall session_invariant (commits r).
Proof.
  intros [Hp Ht] Hc.
  assert (H : session_invariant
                (StreamData.spread s [StreamData.CurrentPlaylist (Some p)])).
  { unfold session_invariant, present in *; cbn.
    split; [ split; [ tauto | congruence ] | exact Ht ]. }
  cbn; split; [ exact H | constructor; [ exact H | constructor ] ].
Qed.

(** The navigation operations, called from the latest render. *)
Lemma nextVideo_keeps_session_invariant env :
  keeps session_invariant (invoke (nextVideo env)).
Proof.
  intros s Hs. unfold invoke, nextVideo.
  destruct (StreamData.currentPlaylist s) as [p | ] eqn:Hp.
  - assert (Hc : present (StreamData.currentPlaylist s))
      by (unfold present; congruence).
    destruct (_ >=? _); [ destruct (Playlist.loop p) | ].
    + apply replace_playlist_keeps_session_invariant; assumption.
    + exact (keeps_detach _ _ (stopStream_keeps_session_invariant env s) s Hs).
    + apply replace_playlist_keeps_session_invariant; assumption.
  - exact (keeps_ret _ tt s Hs).
Qed.

Lemma previousVideo_keeps_session_invariant :
  keeps session_invariant (invoke previousVideo).
Proof.
  intros s Hs. unfold invoke, previousVideo.
  destruct (StreamData.currentPlaylist s) as [p | ] eqn:Hp.
  - apply replace_playlist_keeps_session_invariant;
      [ exact Hs | unfold present; congruence ].
  - exact (keeps_ret _ tt s Hs).
Qed.

Lemma playVideo_keeps_session_invariant index :
  keeps session_invariant (invoke (playVideo index)).
Proof.
  intros s Hs. unfold invoke, playVideo.
  destruct (StreamData.currentPlaylist s) as [p | ] eqn:Hp.
  - destruct (_ && _).
    + apply replace_playlist_keeps_session_invariant;
        [ exact Hs | unfold present; congruence ].
    + exact (keeps_ret _ tt s Hs).
  - exact (keeps_ret _ tt s Hs).
Qed.

Lemma togglePlayPause_keeps_session_invariant :
  keeps session_invariant (invoke togglePlayPause).
Proof.
  intros s Hs. unfold invoke, togglePlayPause.
  destruct (StreamData.currentPlaylist s) as [p | ] eqn:Hp.
  - apply replace_playlist_keeps_session_invariant;
      [ exact Hs | unfold present; congruence ].
  - exact (keeps_ret _ tt s Hs).
Qed.

Lemma perform_keeps_session_invariant (c : Command) :
  keeps session_invariant (perform c).
Proof.
  destruct c; cbn [perform].
  - apply startPlaylistStream_keeps_session_invariant.
  - intros s Hs. apply stopStream_keeps_session_invariant; exact Hs.
  - apply refreshStreamStatus_keeps_session_invariant.
  - apply nextVideo_keeps_session_invariant.
  - apply previousVideo_keeps_session_invariant.
  - apply playVideo_keeps_session_invariant.
  - apply togglePlayPause_keeps_session_invariant.
  - apply updatePlatformConfig_keeps_session_invariant.
  - apply connectToPlatform_keeps_session_invariant.
  - apply disconnectFromPlatform_keeps_session_invariant.
Qed.

(** ** What a run of each remote operation amounts to *)

Lemma stopStream_run env streamData s :
  stopStream env streamData s =
  match stop_reply env (StreamData.streamType streamData) with
  | Resolved result =>
      if Api.StopResult.success result
      then mkRun (Resolved tt) (stopped s) [stopped s]
      else mkRun (Rejected (StreamStopError
                              (or_else (Api.StopResult.error result)
                                       "Erro ao parar transmissão")))
                 s []
  | Rejected e => mkRun (Rejected e) s []
  end.
Proof.
  unfold stopStream, stop_reply, try_catch, bind, await.
  destruct (getToken env) as [token | e]; cbn; [ | reflexivity ].
  destruct (fetch_stop_internal env token _) as [response | e]; cbn;
    [ | reflexivity ].
  destruct (Api.json response) as [result | e]; cbn; [ | reflexivity ].
  destruct (Api.StopResult.success result); reflexivity.
Qed.

Lemma refreshStreamStatus_run env s :
  refreshStreamStatus env s =
  match status_reply env with
  | Resolved result =>
      let s' :=
        match
          (if Api.StatusResult.success result && Api.StatusResult.is_live result
           then Api.StatusResult.transmission result
           else None)
        with
        | Some transmission =>
            StreamData.spread s
              [ StreamData.IsLive true;
                StreamData.Viewers (Api.Transmission.stats_viewers transmission);
                StreamData.Bitrate (Api.Transmission.stats_bitrate transmission);
                StreamData.Uptime (Api.Transmission.stats_uptime transmission);
                StreamData.Title (Api.Transmission.titulo transmission);
                StreamData.WowzaStatus_ StreamData.online ]
        | None =>
            StreamData.spread s
              [ StreamData.IsLive false;
                StreamData.Viewers 0;
                StreamData.Bitrate 0;
                StreamData.Uptime "00:00:00";
                StreamData.WowzaStatus_ StreamData.offline ]
        end in
      mkRun (Resolved tt) s' [s']
  | Rejected e =>
      let s' := StreamData.spread s [StreamData.WowzaStatus_ StreamData.error] in
      mkRun (Resolved tt) s' [s']
  end.
Proof.
  unfold refreshStreamStatus, status_reply, try_catch, bind, await.
  destruct (getToken env) as [token | e]; cbn; [ | reflexivity ].
  destruct (fetch_status env token) as [response | e]; cbn; [ | reflexivity ].
  destruct (Api.json response) as [result | e]; cbn; [ | reflexivity ].
  destruct (Api.StatusResult.success result && Api.StatusResult.is_live result);
    [ destruct (Api.StatusResult.transmission result) | ]; reflexivity.
Qed.

(** Steps of a computation that starts with an [await]. *)
Lemma bind_await_resolved {A B : Type} (a : A) (k : A -> Async B) s :
  bind (await (Resolved a)) k s = k a s.
Proof. unfold bind, await; cbn. destruct (k a s); reflexivity. Qed.

Lemma bind_await_rejected {A B : Type} (e : Exn) (k : A -> Async B) s :
  bind (await (Rejected e)) k s = mkRun (Rejected e) s [].
Proof. reflexivity. Qed.

(** A [catch] that only rethrows. *)
Lemma try_catch_rethrow {A : Type} (m : Async A) s :
  try_catch m (fun error => throw error) s = m s.
Proof.
  unfold try_catch, throw. destruct (m s) as [[a | e] s' committed]; cbn;
    [ | rewrite app_nil_r ]; reflexivity.
Qed.

(** The run of [startPlaylistStream], await by await. *)
Lemma startPlaylistStream_run env playlistId options s :
  startPlaylistStream env playlistId options s =
  match getToken env with
  | Rejected e => mkRun (Rejected e) s []
  | Resolved token =>
  match fetch_playlist env playlistId token with
  | Rejected e => mkRun (Rejected e) s []
  | Resolved playlistResponse =>
  if negb (Api.ok playlistResponse)
  then mkRun (Rejected (Error "Playlist não encontrada")) s []
  else
  match Api.json playlistResponse with
  | Rejected e => mkRun (Rejected e) s []
  | Resolved playlist =>
  match fetch_playlist_videos env playlistId token with
  | Rejected e => mkRun (Rejected e) s []
  | Resolved videosResponse =>
  if negb (Api.ok videosResponse)
  then mkRun (Rejected (Error "Erro ao carregar vídeos da playlist")) s []
  else
  match Api.json videosResponse with
  | Rejected e => mkRun (Rejected e) s []
  | Resolved playlistVideos =>
  if Z.of_nat (length (map Api.PlaylistVideo.videos playlistVideos)) =? 0
  then mkRun (Rejected (Error "Playlist não possui vídeos")) s []
  else
  match
    fetch_start_internal env token
      (start_request env playlistId options playlist playlistVideos)
  with
  | Rejected e => mkRun (Rejected e) s []
  | Resolved response =>
  match Api.json response with
  | Rejected e => mkRun (Rejected e) s []
  | Resolved result =>
  if Api.StartResult.success result
  then
    mkRun (Resolved tt)
      (started env playlistId options playlist playlistVideos result s)
      [started env playlistId options playlist playlistVideos result s]
  else
    mkRun (Rejected (Error (or_else (Api.StartResult.error result)
                                    "Erro ao iniciar playlist")))
          s []
  end end end end end end end.
Proof.
  unfold startPlaylistStream. rewrite try_catch_rethrow.
  destruct (getToken env) as [token | e];
    [ rewrite bind_await_resolved | reflexivity ].
  destruct (fetch_playlist env playlistId token) as [playlistResponse | e];
    [ rewrite bind_await_resolved | reflexivity ].
  destruct (Api.ok playlistResponse); cbn [negb]; [ | reflexivity ].
  destruct (Api.json playlistResponse) as [playlist | e];
    [ rewrite bind_await_resolved | reflexivity ].
  destruct (fetch_playlist_videos env playlistId token)
    as [videosResponse | e];
    [ rewrite bind_await_resolved | reflexivity ].
  destruct (Api.ok videosResponse); cbn [negb]; [ | reflexivity ].
  destruct (Api.json videosResponse) as [playlistVideos | e];
    [ rewrite bind_await_resolved | reflexivity ].
  cbv zeta.
  destruct (Z.of_nat (length (map Api.PlaylistVideo.videos playlistVideos))
            =? 0); [ reflexivity | ].
  change (fetch_start_internal env token _)
    with (fetch_start_internal env token
            (start_request env playlistId options playlist playlistVideos)).
  destruct (fetch_start_internal env token
              (start_request env playlistId options playlist playlistVideos))
    as [response | e];
    [ rewrite bind_await_resolved | reflexivity ].
  destruct (Api.json response) as [result | e];
    [ rewrite bind_await_resolved | reflexivity ].
  destruct (Api.StartResult.success result); reflexivity.
Qed.

(** A rejected start has committed nothing. *)
Lemma startPlaylistStream_rejected_unchanged env playlistId options s e :
  outcome (startPlaylistStream env playlistId options s) = Rejected e ->
  final (startPlaylistStream env playlistId options s) = s
  /\ commits (startPlaylistStream env playlistId options s) = [].
Proof.
  rewrite startPlaylistStream_run.
  destruct (getToken env) as [token | e0]; [ | cbn; auto ].
  destruct (fetch_playlist env playlistId token) as [response | e0];
    [ | cbn; auto ].
  destruct (Api.ok response); cbn [negb]; [ | cbn; auto ].
  destruct (Api.json response) as [playlist | e0]; [ | cbn; auto ].
  destruct (fetch_playlist_videos env playlistId token)
    as [videosResponse | e0]; [ | cbn; auto ].
  destruct (Api.ok videosResponse); cbn [negb]; [ | cbn; auto ].
  destruct (Api.json videosResponse) as [playlistVideos | e0];
    [ | cbn; auto ].
  destruct (Z.of_nat _ =? 0); [ cbn; auto | ].
  destruct (fetch_start_internal env token _) as [startResponse | e0];
    [ | cbn; auto ].
  destruct (Api.json startResponse) as [result | e0]; [ | cbn; auto ].
  destruct (Api.StartResult.success result);
    cbn [outcome final commits]; [ discriminate | auto ].
Qed.

(** Once both lookups are answered and the list is not empty, the run is
    decided by the answer to the start request. *)
Lemma startPlaylistStream_loaded
    env playlistId options token playlist playlistVideos s :
  playlist_loaded env playlistId token playlist playlistVideos ->
  playlistVideos <> [] ->
  startPlaylistStream env playlistId options s =
  let request := start_request env playlistId options playlist playlistVideos in
  match fetch_start_internal env token request with
  | Rejected e => mkRun (Rejected e) s []
  | Resolved response =>
      match Api.json response with
      | Rejected e => mkRun (Rejected e) s []
      | Resolved result =>
          if Api.StartResult.success result
          then
            let s' :=
              StreamData.spread s
                [ StreamData.IsLive true;
                  StreamData.StreamUrl
                    (or_else (Api.StartResult.stream_url result) EmptyString);
                  StreamData.StreamName
                    (or_else (Api.StartResult.stream_name result) EmptyString);
                  StreamData.Title (Api.PlaylistInfo.nome playlist);
                  StreamData.StartTime (Some (new_Date env));
                  StreamData.Viewers 0;
                  StreamData.Bitrate 2500;
                  StreamData.WowzaStatus_ StreamData.online;
                  StreamData.StreamType_ StreamData.playlist;
                  StreamData.CurrentPlaylist (Some {|
                    Playlist.id := playlistId;
                    Playlist.name := Api.PlaylistInfo.nome playlist;
                    Playlist.videos := Api.StartRequest.videos request;
                    Playlist.currentVideoIndex := 0;
                    Playlist.isPlaying := true;
                    Playlist.loop := nullish (opt_loop options) true;
                    Playlist.shuffle := nullish (opt_shuffle options) false
                  |}) ] in
            mkRun (Resolved tt) s' [s']
          else
            mkRun (Rejected (StreamStartError
                               (or_else (Api.StartResult.error result)
                                        "Erro ao iniciar playlist")))
                  s []
      end
  end.
Proof.
  intros (Htoken & Hplaylist & Hvideos) Hnonempty.
  rewrite startPlaylistStream_run, Htoken, Hplaylist.
  unfold respond at 1. cbn [Api.ok Api.json negb].
  rewrite Hvideos. unfold respond at 1. cbn [Api.ok Api.json negb].
  replace (Z.of_nat (length (map Api.PlaylistVideo.videos playlistVideos))
           =? 0) with false.
  - cbv zeta.
    destruct (fetch_start_internal env token _) as [response | e];
      [ | reflexivity ].
    destruct (Api.json response) as [result | e]; [ | reflexivity ].
    destruct (Api.StartResult.success result); reflexivity.
  - symmetry. apply Z.eqb_neq. rewrite length_map.
    destruct playlistVideos; [ congruence | cbn [length]; lia ].
Qed.

(** ** The presence invariant *)

(** C1, as stated, fails: the presence invariant of the data model does not
    hold in every reachable snapshot.  After the initial status poll finds the
    stream live, [isLive] is true and no [startTime] has been set. *)
Lemma presence_invariant_broken_by_poll :
  reachable joined_live_stream
  /\ StreamData.isLive joined_live_stream = true
  /\ StreamData.startTime joined_live_stream = None
  /\ ~ presence_invariant joined_live_stream.
Proof.
  split; [ | split; [ | split ] ].
  - apply reach_final. apply reach_initial.
  - reflexivity.
  - reflexivity.
  - intros [_ [_ Hlive]].
    apply (Hlive eq_refl). reflexivity.
Qed.

(** C1, amended: in every snapshot reachable by the operations, each called
    from the latest render, [currentPlaylist] is present if and only if
    [streamType] is [playlist], and [startTime] is present if and only if
    [streamType] is [playlist]. *)
Theorem reachable_session_invariant (s : StreamData.t) :
  reachable s -> session_invariant s.
Proof.
  induction 1 as [ | s c s' Hreach IH Hin | s c Hreach IH ].
  - unfold session_invariant, present; cbn.
    split; split; intros H; congruence.
  - destruct (perform_keeps_session_invariant c s IH) as [_ Hcommits].
    rewrite Forall_forall in Hcommits. apply Hcommits. exact Hin.
  - destruct (perform_keeps_session_invariant c s IH) as [Hfinal _].
    exact Hfinal.
Qed.

Lemma reachable_session_invariant_witness :
  reachable playing_7 /\ session_invariant playing_7.
Proof.
  assert (H : reachable playing_7).
  { exact (reach_final initialStreamData
             (StartPlaylistStream env_accepting 7 no_options) reach_initial). }
  split; [ exact H | exact (reachable_session_invariant playing_7 H) ].
Defined.

(** [isLive] and the presence of [startTime] vary independently over the
    reachable snapshots: all four combinations occur. *)
Lemma isLive_independent_of_startTime :
  (exists s, reachable s /\ StreamData.isLive s = false
             /\ StreamData.startTime s = None)
  /\ (exists s, reachable s /\ StreamData.isLive s = true
                /\ StreamData.startTime s = None)
  /\ (exists s, reachable s /\ StreamData.isLive s = true
                /\ StreamData.startTime s <> None)
  /\ (exists s, reachable s /\ StreamData.isLive s = false
                /\ StreamData.startTime s <> None).
Proof.
  assert (Hplaying : reachable playing_7).
  { exact (reach_final initialStreamData
             (StartPlaylistStream env_accepting 7 no_options) reach_initial). }
  repeat split.
  - exists initialStreamData. repeat split. apply reach_initial.
  - exists joined_live_stream. repeat split.
    apply reach_final, reach_initial.
  - exists playing_7. repeat split; [ exact Hplaying | discriminate ].
  - exists (final (perform (RefreshStreamStatus env_refusing) playing_7)).
    repeat split; [ apply reach_final; exact Hplaying | discriminate ].
Qed.

(** ** Playback navigation *)

(** C2, as stated, fails: at the last index of a playlist that does not
    loop, [nextVideo] only triggers [stopStream]; when the server refuses the
    stop, the playback state stays and the session stays live. *)
Lemma nextVideo_at_end_stop_refused :
  let s := playing last_video_no_loop in
  let s' := final (invoke (nextVideo env_refusing) s) in
  StreamData.currentPlaylist s = Some last_video_no_loop
  /\ Playlist.currentVideoIndex last_video_no_loop
     = Playlist.length last_video_no_loop - 1
  /\ Playlist.loop last_video_no_loop = false
  /\ ~ (StreamData.currentPlaylist s' = None
        /\ StreamData.isLive s' = false).
Proof.
  cbn zeta. repeat split.
  intros [Hplaylist _]. vm_compute in Hplaylist. discriminate.
Qed.

(** C2, amended: at the last index with [loop = false], [nextVideo] returns
    normally and its effect is that of the [stopStream] it triggers: when the
    stop request succeeds the snapshot is the idle baseline, with no playback
    state and [isLive = false]; when it is refused or cannot be sent, the
    snapshot is unchanged. *)
Theorem nextVideo_at_end_without_loop
    (env : Env) (s : StreamData.t) (p : Playlist.t) :
  StreamData.currentPlaylist s = Some p ->
  Playlist.currentVideoIndex p = Playlist.length p - 1 ->
  Playlist.loop p = false ->
  let r := invoke (nextVideo env) s in
  outcome r = Resolved tt
  /\ final r = final (invoke (stopStream env) s)
  /\ match stop_reply env (StreamData.streamType s) with
     | Resolved result =>
         if Api.StopResult.success result
         then final r = stopped s
              /\ StreamData.currentPlaylist (final r) = None
              /\ StreamData.isLive (final r) = false
         else final r = s
     | Rejected _ => final r = s
     end.
Proof.
  intros Hp Hlast Hloop. unfold invoke, nextVideo. rewrite Hp.
  replace (Playlist.currentVideoIndex p + 1 >=? Playlist.length p) with true
    by (symmetry; apply Z.geb_le; lia).
  rewrite Hloop. unfold detach; cbn.
  split; [ reflexivity | split; [ reflexivity | ] ].
  rewrite stopStream_run.
  destruct (stop_reply env (StreamData.streamType s)) as [result | e];
    [ destruct (Api.StopResult.success result) | ]; cbn; auto.
Qed.

Lemma nextVideo_at_end_without_loop_witness :
  let s := playing last_video_no_loop in
  StreamData.currentPlaylist (final (invoke (nextVideo env_accepting) s)) = None
  /\ StreamData.isLive (final (invoke (nextVideo env_accepting) s)) = false.
Proof.
  pose proof (nextVideo_at_end_without_loop
                env_accepting (playing last_video_no_loop) last_video_no_loop
                eq_refl eq_refl eq_refl) as (_ & _ & H).
  cbn in H. destruct H as (_ & Hplaylist & Hlive).
  split; [ exact Hplaylist | exact Hlive ].
Defined.

(** C7: from a playback state whose index is valid, [nextVideo],
    [previousVideo] and [playVideo] leave the video list as it is and the
    index valid (for [nextVideo], whenever a playback state is left, and one
    is left unless the playlist ends without loop); [previousVideo] from
    index 0 goes to the last index, and [playVideo] with an index out of
    range changes nothing. *)
Theorem navigation_keeps_index_valid (s : StreamData.t) (p : Playlist.t) :
  StreamData.currentPlaylist s = Some p ->
  valid_index p ->
  (forall env p',
      StreamData.currentPlaylist (after (NextVideo env) s) = Some p' ->
      Playlist.videos p' = Playlist.videos p /\ valid_index p')
  /\ (forall env,
         Playlist.currentVideoIndex p + 1 < Playlist.length p
         \/ Playlist.loop p = true ->
         StreamData.currentPlaylist (after (NextVideo env) s)
         = Some (Playlist.with_currentVideoIndex p
                   (if Playlist.currentVideoIndex p + 1 <? Playlist.length p
                    then Playlist.currentVideoIndex p + 1
                    else 0)))
  /\ (exists p',
         StreamData.currentPlaylist (after PreviousVideo s) = Some p'
         /\ Playlist.videos p' = Playlist.videos p
         /\ valid_index p'
         /\ (Playlist.currentVideoIndex p = 0 ->
             Playlist.currentVideoIndex p' = Playlist.length p - 1))
  /\ (forall index, exists p',
         StreamData.currentPlaylist (after (PlayVideo index) s) = Some p'
         /\ Playlist.videos p' = Playlist.videos p
         /\ valid_index p'
         /\ (~ 0 <= index < Playlist.length p ->
             after (PlayVideo index) s = s
             /\ Playlist.currentVideoIndex p' = Playlist.currentVideoIndex p)).
Proof.
  intros Hp Hvalid. unfold valid_index in Hvalid.
  unfold after, perform, invoke. split; [ | split; [ | split ] ].
  - intros env p'. unfold nextVideo. rewrite Hp.
    destruct (Playlist.currentVideoIndex p + 1 >=? Playlist.length p) eqn:Hend.
    + destruct (Playlist.loop p).
      * cbn. intros [= <-]. unfold valid_index, Playlist.length in *; cbn.
        split; [ reflexivity | lia ].
      * unfold detach; cbn. rewrite stopStream_run.
        destruct (stop_reply env _) as [result | e];
          [ destruct (Api.StopResult.success result) | ]; cbn.
        -- discriminate.
        -- rewrite Hp. intros [= <-]. split; [ reflexivity | exact Hvalid ].
        -- rewrite Hp. intros [= <-]. split; [ reflexivity | exact Hvalid ].
    + rewrite Z.geb_leb in Hend. apply Z.leb_gt in Hend.
      cbn. intros [= <-]. unfold valid_index, Playlist.length in *; cbn.
      split; [ reflexivity | lia ].
  - intros env Hgoes_on. unfold nextVideo. rewrite Hp.
    rewrite Z.geb_leb.
    destruct (Playlist.currentVideoIndex p + 1 <? Playlist.length p) eqn:Hnext.
    + apply Z.ltb_lt in Hnext.
      replace (Playlist.length p <=? Playlist.currentVideoIndex p + 1)
        with false by (symmetry; apply Z.leb_gt; lia).
      reflexivity.
    + apply Z.ltb_ge in Hnext.
      replace (Playlist.length p <=? Playlist.currentVideoIndex p + 1)
        with true by (symmetry; apply Z.leb_le; lia).
      destruct Hgoes_on as [Hlt | Hloop]; [ lia | ].
      rewrite Hloop. reflexivity.
  - unfold previousVideo. rewrite Hp. cbn.
    eexists; split; [ reflexivity | ].
    unfold valid_index, Playlist.length in *; cbn.
    destruct (Playlist.currentVideoIndex p - 1 <? 0) eqn:Hwrap.
    + apply Z.ltb_lt in Hwrap. repeat split; lia.
    + apply Z.ltb_ge in Hwrap. repeat split; lia.
  - intros index. unfold playVideo. rewrite Hp.
    destruct (index >=? 0) eqn:Hlow; destruct (index <? Playlist.length p) eqn:Hhigh;
      cbn.
    + apply Z.geb_le in Hlow. apply Z.ltb_lt in Hhigh.
      eexists; split; [ reflexivity | ].
      unfold valid_index, Playlist.length in *; cbn.
      repeat split; lia.
    + rewrite Hp. exists p. repeat split; tauto.
    + rewrite Hp. exists p. repeat split; tauto.
    + rewrite Hp. exists p. repeat split; tauto.
Qed.

Lemma navigation_keeps_index_valid_witness :
  StreamData.currentPlaylist playing_7
  = Some (Playlist.mk 7 "Matinal" [11; 12; 13] 0 true true false)
  /\ (exists p',
         StreamData.currentPlaylist (after PreviousVideo playing_7) = Some p'
         /\ Playlist.currentVideoIndex p' = 2)
  /\ (exists p',
         StreamData.currentPlaylist (after (PlayVideo 3) playing_7) = Some p'
         /\ Playlist.currentVideoIndex p' = 0).
Proof.
  assert (Hvalid : valid_index
                     (Playlist.mk 7 "Matinal" [11; 12; 13] 0 true true false))
    by (unfold valid_index; cbn; lia).
  destruct (navigation_keeps_index_valid playing_7 _ eq_refl Hvalid)
    as (_ & _ & (p1 & Hp1 & _ & _ & Hwrap) & Hseek).
  destruct (Hseek 3) as (p2 & Hp2 & _ & _ & Hout).
  split; [ reflexivity | split ].
  - exists p1. split; [ exact Hp1 | exact (Hwrap eq_refl) ].
  - exists p2. split; [ exact Hp2 | ].
    apply Hout. unfold Playlist.length; cbn. lia.
Defined.

(** ** Starting a playlist session *)

(** C3, as stated, fails: when the start request cannot be sent, the
    rejection is the exception of the transport, rethrown by the [catch] as
    it is, and not an error of the module carrying a reason of the server. *)
Lemma startPlaylistStream_network_error_rethrown :
  let r :=
    startPlaylistStream env_start_unreachable 7 no_options initialStreamData in
  let playlistVideos :=
    [Api.PlaylistVideo.mk 11; Api.PlaylistVideo.mk 12; Api.PlaylistVideo.mk 13]
  in
  playlist_loaded env_start_unreachable 7 "token"
    (Api.PlaylistInfo.mk "Matinal") playlistVideos
  /\ fetch_start_internal env_start_unreachable "token"
       (start_request env_start_unreachable 7 no_options
          (Api.PlaylistInfo.mk "Matinal") playlistVideos)
     = Rejected (TypeError "Failed to fetch")
  /\ outcome r = Rejected (TypeError "Failed to fetch")
  /\ ~ (exists reason, outcome r = Rejected (StreamStartError reason)).
Proof.
  cbn zeta. split; [ | split; [ | split ] ].
  - repeat split.
  - reflexivity.
  - reflexivity.
  - intros [reason Hreason]. vm_compute in Hreason. discriminate.
Qed.

(** C3, amended: [startPlaylistStream] rejects with the not-found error when
    the playlist lookup is not 2xx, with the empty-playlist error when the
    video list is empty, with an error carrying the reason the server
    supplied (a fixed message when it supplied none) when the server answers
    [success = false], and with the exception of the transport, unchanged,
    when the start request cannot be completed; a rejected start leaves the
    snapshot unchanged. *)
Theorem startPlaylistStream_failures
    (env : Env) (playlistId : Z) (options : StartOptions) (s : StreamData.t) :
  let r := startPlaylistStream env playlistId options s in
  (forall token response,
      getToken env = Resolved token ->
      fetch_playlist env playlistId token = Resolved response ->
      Api.ok response = false ->
      outcome r = Rejected NotFoundError)
  /\ (forall token playlist,
         playlist_loaded env playlistId token playlist [] ->
         outcome r = Rejected EmptyPlaylistError)
  /\ (forall token playlist playlistVideos,
         playlist_loaded env playlistId token playlist playlistVideos ->
         playlistVideos <> [] ->
         match
           fetch_start_internal env token
             (start_request env playlistId options playlist playlistVideos)
         with
         | Rejected e => outcome r = Rejected e
         | Resolved response =>
             match Api.json response with
             | Rejected e => outcome r = Rejected e
             | Resolved result =>
                 Api.StartResult.success result = false ->
                 outcome r
                 = Rejected (StreamStartError
                               (or_else (Api.StartResult.error result)
                                        "Erro ao iniciar playlist"))
                 /\ (forall reason,
                        Api.StartResult.error result = Some reason ->
                        reason <> EmptyString ->
                        outcome r = Rejected (StreamStartError reason))
             end
         end)
  /\ (forall e, outcome r = Rejected e -> final r = s /\ commits r = []).
Proof.
  cbn zeta. split; [ | split; [ | split ] ].
  - intros token response Htoken Hresponse Hok.
    rewrite startPlaylistStream_run, Htoken, Hresponse, Hok.
    reflexivity.
  - intros token playlist (Htoken & Hplaylist & Hvideos).
    rewrite startPlaylistStream_run, Htoken, Hplaylist.
    unfold respond at 1. cbn [Api.ok Api.json negb].
    rewrite Hvideos. reflexivity.
  - intros token playlist playlistVideos Hloaded Hnonempty.
    rewrite (startPlaylistStream_loaded _ _ _ _ _ _ _ Hloaded Hnonempty).
    cbn zeta.
    destruct (fetch_start_internal env token _) as [response | e];
      [ | reflexivity ].
    destruct (Api.json response) as [result | e]; [ | reflexivity ].
    intros Hfail. rewrite Hfail. split; [ reflexivity | ].
    intros reason Hreason Hnot_empty. rewrite Hreason. cbn.
    destruct reason; [ congruence | reflexivity ].
  - apply startPlaylistStream_rejected_unchanged.
Qed.

Lemma startPlaylistStream_failures_witness :
  let r := startPlaylistStream env_refusing 7 no_options playing_7 in
  outcome r = Rejected (StreamStartError "Wowza ocupado")
  /\ final r = playing_7
  /\ outcome (startPlaylistStream env_offline 7 no_options playing_7)
     = Rejected (TypeError "Failed to fetch").
Proof.
  cbn zeta.
  destruct (startPlaylistStream_failures env_refusing 7 no_options playing_7)
    as (_ & _ & Hstart & Hunchanged).
  pose proof (Hstart "token"%string (Api.PlaylistInfo.mk "Matinal")
                [Api.PlaylistVideo.mk 11; Api.PlaylistVideo.mk 12;
                 Api.PlaylistVideo.mk 13]
                (conj eq_refl (conj eq_refl eq_refl))
                ltac:(discriminate)) as H.
  cbn in H. destruct (H eq_refl) as [_ Hreason].
  pose proof (Hreason "Wowza ocupado"%string eq_refl ltac:(discriminate))
    as Hout.
  split; [ exact Hout | split ].
  - exact (proj1 (Hunchanged _ Hout)).
  - reflexivity.
Defined.

(** C4: when the start request succeeds, [startPlaylistStream] commits one
    update, which sets [isLive], the [playlist] stream type, [startTime] to
    the current date, [viewers = 0], the bitrate 2500, [wowzaStatus = online]
    and a playback state at index 0, playing, with the loop and shuffle flags
    of the options ([loop] defaults to true, [shuffle] to false). *)
Theorem startPlaylistStream_success
    (env : Env) (playlistId : Z) (options : StartOptions) (s : StreamData.t)
    (token : string) (playlist : Api.PlaylistInfo.t)
    (playlistVideos : list Api.PlaylistVideo.t)
    (status_ok : bool) (result : Api.StartResult.t) :
  playlist_loaded env playlistId token playlist playlistVideos ->
  playlistVideos <> [] ->
  fetch_start_internal env token
    (start_request env playlistId options playlist playlistVideos)
  = Resolved (Api.mkResponse status_ok (Resolved result)) ->
  Api.StartResult.success result = true ->
  let r := startPlaylistStream env playlistId options s in
  let s' := final r in
  outcome r = Resolved tt
  /\ commits r = [s']
  /\ StreamData.isLive s' = true
  /\ StreamData.streamType s' = StreamData.playlist
  /\ StreamData.startTime s' = Some (new_Date env)
  /\ StreamData.viewers s' = 0
  /\ StreamData.bitrate s' = 2500
  /\ StreamData.wowzaStatus s' = StreamData.online
  /\ StreamData.currentPlaylist s'
     = Some {|
         Playlist.id := playlistId;
         Playlist.name := Api.PlaylistInfo.nome playlist;
         Playlist.videos :=
           Api.StartRequest.videos
             (start_request env playlistId options playlist playlistVideos);
         Playlist.currentVideoIndex := 0;
         Playlist.isPlaying := true;
         Playlist.loop := nullish (opt_loop options) true;
         Playlist.shuffle := nullish (opt_shuffle options) false
       |}
  /\ nullish (opt_loop no_options) true = true
  /\ nullish (opt_shuffle no_options) false = false
  /\ StreamData.title s' = Api.PlaylistInfo.nome playlist
  /\ StreamData.uptime s' = StreamData.uptime s
  /\ StreamData.duration s' = StreamData.duration s
  /\ StreamData.platforms s' = StreamData.platforms s
  /\ StreamData.applicationName s' = StreamData.applicationName s.
Proof.
  intros Hloaded Hnonempty Hstart Hsuccess. cbn zeta.
  rewrite (startPlaylistStream_loaded _ _ _ _ _ _ _ Hloaded Hnonempty).
  cbn zeta. rewrite Hstart. cbn [Api.json]. rewrite Hsuccess.
  cbn. repeat split.
Qed.

Lemma startPlaylistStream_success_witness :
  let s' := final (startPlaylistStream env_accepting 7
                     (mkStartOptions (Some false) (Some true))
                     initialStreamData) in
  StreamData.isLive s' = true
  /\ StreamData.currentPlaylist s'
     = Some (Playlist.mk 7 "Matinal" [13; 12; 11] 0 true false true).
Proof.
  pose proof (startPlaylistStream_success env_accepting 7
                (mkStartOptions (Some false) (Some true)) initialStreamData
                "token"%string (Api.PlaylistInfo.mk "Matinal")
                [Api.PlaylistVideo.mk 11; Api.PlaylistVideo.mk 12;
                 Api.PlaylistVideo.mk 13]
                true
                (Api.StartResult.mk true (Some "rtmp://host/live/s7"%string)
                   (Some "s7"%string) None)
                (conj eq_refl (conj eq_refl eq_refl))
                ltac:(discriminate) eq_refl eq_refl)
    as (_ & _ & Hlive & _ & _ & _ & _ & _ & Hplaylist & _).
  split; [ exact Hlive | exact Hplaylist ].
Defined.

(** ** Stopping *)

(** C5, as stated, fails: when the stop request cannot be sent, the
    rejection is the exception of the transport, rethrown by the [catch] as
    it is, and not the stop error of the module. *)
Lemma stopStream_network_error_rethrown :
  let r := invoke (stopStream env_offline) playing_7 in
  stop_reply env_offline (StreamData.streamType playing_7)
  = Rejected (TypeError "Failed to fetch")
  /\ outcome r = Rejected (TypeError "Failed to fetch")
  /\ ~ (exists reason, outcome r = Rejected (StreamStopError reason)).
Proof.
  cbn zeta. split; [ | split ].
  - reflexivity.
  - reflexivity.
  - intros [reason Hreason]. vm_compute in Hreason. discriminate.
Qed.

(** C5, amended: when the stop request succeeds, [stopStream] resets the
    snapshot to the idle baseline; when the server answers [success = false]
    it rejects with the stop error, and when the request cannot be completed
    it rejects with the exception of the transport, unchanged; in both cases
    it leaves the snapshot unchanged. *)
Theorem stopStream_resets_or_leaves
    (env : Env) (streamData s : StreamData.t) :
  let r := stopStream env streamData s in
  let s' := final r in
  (forall result,
      stop_reply env (StreamData.streamType streamData) = Resolved result ->
      Api.StopResult.success result = true ->
      outcome r = Resolved tt
      /\ commits r = [s']
      /\ StreamData.isLive s' = false
      /\ StreamData.viewers s' = 0
      /\ StreamData.bitrate s' = 0
      /\ StreamData.duration s' = 0
      /\ StreamData.uptime s' = "00:00:00"%string
      /\ StreamData.streamType s' = StreamData.none
      /\ StreamData.currentPlaylist s' = None
      /\ StreamData.startTime s' = None
      /\ StreamData.wowzaStatus s' = StreamData.offline
      /\ StreamData.streamUrl s' = EmptyString
      /\ StreamData.streamName s' = EmptyString
      /\ StreamData.title s' = StreamData.title s
      /\ StreamData.platforms s' = StreamData.platforms s
      /\ StreamData.applicationName s' = StreamData.applicationName s)
  /\ (forall result,
         stop_reply env (StreamData.streamType streamData) = Resolved result ->
         Api.StopResult.success result = false ->
         outcome r
         = Rejected (StreamStopError (or_else (Api.StopResult.error result)
                                              "Erro ao parar transmissão"))
         /\ s' = s /\ commits r = [])
  /\ (forall e,
         stop_reply env (StreamData.streamType streamData) = Rejected e ->
         outcome r = Rejected e /\ s' = s /\ commits r = []).
Proof.
  cbn zeta. rewrite stopStream_run. split; [ | split ].
  - intros result Hreply Hsuccess. rewrite Hreply, Hsuccess.
    cbn. repeat split.
  - intros result Hreply Hfail. rewrite Hreply, Hfail.
    cbn. repeat split.
  - intros e Hreply. rewrite Hreply. cbn. repeat split.
Qed.

Lemma stopStream_resets_or_leaves_witness :
  StreamData.isLive playing_7 = true
  /\ StreamData.isLive (final (invoke (stopStream env_accepting) playing_7))
     = false
  /\ StreamData.currentPlaylist
       (final (invoke (stopStream env_accepting) playing_7)) = None
  /\ outcome (invoke (stopStream env_refusing) playing_7)
     = Rejected (StreamStopError "Wowza ocupado")
  /\ final (invoke (stopStream env_refusing) playing_7) = playing_7
  /\ outcome (invoke (stopStream env_offline) playing_7)
     = Rejected (TypeError "Failed to fetch")
  /\ final (invoke (stopStream env_offline) playing_7) = playing_7.
Proof.
  destruct (stopStream_resets_or_leaves env_accepting playing_7 playing_7)
    as (Hok & _ & _).
  destruct (Hok (Api.StopResult.mk true None) eq_refl eq_refl)
    as (_ & _ & Hlive & _ & _ & _ & _ & _ & Hplaylist & _).
  destruct (stopStream_resets_or_leaves env_refusing playing_7 playing_7)
    as (_ & Hrefused & _).
  destruct (Hrefused (Api.StopResult.mk false (Some "Wowza ocupado"%string))
              eq_refl eq_refl) as (Hout & Hsame & _).
  destruct (stopStream_resets_or_leaves env_offline playing_7 playing_7)
    as (_ & _ & Hoffline).
  destruct (Hoffline (TypeError "Failed to fetch") eq_refl)
    as (Hout' & Hsame' & _).
  unfold invoke. repeat split; assumption || reflexivity.
Defined.

(** ** The status poll *)

(** C6: a status response with [is_live = false] makes [refreshStreamStatus]
    set [isLive = false], [viewers = 0], [bitrate = 0], the uptime to
    00:00:00 and [wowzaStatus = offline], whatever the snapshot was, in
    particular right after a successful [startPlaylistStream]. *)
Theorem refreshStreamStatus_not_live
    (env : Env) (s : StreamData.t) (result : Api.StatusResult.t) :
  status_reply env = Resolved result ->
  Api.StatusResult.is_live result = false ->
  let r := refreshStreamStatus env s in
  outcome r = Resolved tt
  /\ final r = forced_offline s
  /\ StreamData.isLive (final r) = false
  /\ StreamData.viewers (final r) = 0
  /\ StreamData.bitrate (final r) = 0
  /\ StreamData.uptime (final r) = "00:00:00"%string
  /\ StreamData.wowzaStatus (final r) = StreamData.offline.
Proof.
  intros Hreply Hnot_live. cbn zeta.
  rewrite refreshStreamStatus_run, Hreply. cbn zeta.
  rewrite Hnot_live, andb_false_r. cbn. repeat split.
Qed.

Lemma refreshStreamStatus_not_live_witness :
  StreamData.isLive playing_7 = true
  /\ StreamData.isLive (final (refreshStreamStatus env_refusing playing_7))
     = false
  /\ StreamData.wowzaStatus (final (refreshStreamStatus env_refusing playing_7))
     = StreamData.offline.
Proof.
  destruct (refreshStreamStatus_not_live env_refusing playing_7
              (Api.StatusResult.mk true false None) eq_refl eq_refl)
    as (_ & _ & Hlive & _ & _ & _ & Hstatus).
  split; [ reflexivity | split; [ exact Hlive | exact Hstatus ] ].
Defined.

(** C10: a status response with [success = true] and [is_live = true] but no
    [transmission] object goes through the not-live branch. *)
Theorem refreshStreamStatus_live_without_transmission
    (env : Env) (s : StreamData.t) (result : Api.StatusResult.t) :
  status_reply env = Resolved result ->
  Api.StatusResult.success result = true ->
  Api.StatusResult.is_live result = true ->
  Api.StatusResult.transmission result = None ->
  let r := refreshStreamStatus env s in
  outcome r = Resolved tt
  /\ final r = forced_offline s
  /\ StreamData.isLive (final r) = false
  /\ StreamData.viewers (final r) = 0
  /\ StreamData.bitrate (final r) = 0
  /\ StreamData.uptime (final r) = "00:00:00"%string
  /\ StreamData.wowzaStatus (final r) = StreamData.offline.
Proof.
  intros Hreply Hsuccess Hlive Hnone. cbn zeta.
  rewrite refreshStreamStatus_run, Hreply. cbn zeta.
  rewrite Hsuccess, Hlive, Hnone. cbn. repeat split.
Qed.

Lemma refreshStreamStatus_live_without_transmission_witness :
  StreamData.isLive playing_7 = true
  /\ StreamData.isLive
       (final (refreshStreamStatus env_live_without_transmission playing_7))
     = false.
Proof.
  destruct (refreshStreamStatus_live_without_transmission
              env_live_without_transmission playing_7
              (Api.StatusResult.mk true true None)
              eq_refl eq_refl eq_refl eq_refl)
    as (_ & _ & Hlive & _).
  split; [ reflexivity | exact Hlive ].
Defined.

(** C8: when the poll fails (the token, the request or the parsing of the
    body), [refreshStreamStatus] writes [wowzaStatus = error] and nothing
    else; and whatever happens, it resolves: no error reaches the caller. *)
Theorem refreshStreamStatus_fail_soft (env : Env) (s : StreamData.t) :
  let r := refreshStreamStatus env s in
  outcome r = Resolved tt
  /\ (forall e,
         status_reply env = Rejected e ->
         final r = StreamData.spread s [StreamData.WowzaStatus_ StreamData.error]
         /\ commits r = [final r]
         /\ StreamData.wowzaStatus (final r) = StreamData.error
         /\ StreamData.isLive (final r) = StreamData.isLive s
         /\ StreamData.streamUrl (final r) = StreamData.streamUrl s
         /\ StreamData.title (final r) = StreamData.title s
         /\ StreamData.viewers (final r) = StreamData.viewers s
         /\ StreamData.uptime (final r) = StreamData.uptime s
         /\ StreamData.bitrate (final r) = StreamData.bitrate s
         /\ StreamData.startTime (final r) = StreamData.startTime s
         /\ StreamData.duration (final r) = StreamData.duration s
         /\ StreamData.platforms (final r) = StreamData.platforms s
         /\ StreamData.applicationName (final r) = StreamData.applicationName s
         /\ StreamData.streamName (final r) = StreamData.streamName s
         /\ StreamData.currentPlaylist (final r) = StreamData.currentPlaylist s
         /\ StreamData.streamType (final r) = StreamData.streamType s).
Proof.
  cbn zeta. rewrite refreshStreamStatus_run. split.
  - destruct (status_reply env); reflexivity.
  - intros e Hreply. rewrite Hreply. cbn. repeat split.
Qed.

Lemma refreshStreamStatus_fail_soft_witness :
  let r := refreshStreamStatus env_offline playing_7 in
  outcome r = Resolved tt
  /\ StreamData.wowzaStatus (final r) = StreamData.error
  /\ StreamData.isLive (final r) = true
  /\ StreamData.currentPlaylist (final r) = StreamData.currentPlaylist playing_7.
Proof.
  destruct (refreshStreamStatus_fail_soft env_offline playing_7)
    as (Hout & Hfail).
  destruct (Hfail (TypeError "Failed to fetch") eq_refl)
    as (_ & _ & Hstatus & Hlive & _ & _ & _ & _ & _ & _ & _ & _ & _ & _
        & Hplaylist & _).
  cbn zeta. split; [ exact Hout | split; [ exact Hstatus | split ] ].
  - rewrite Hlive. reflexivity.
  - exact Hplaylist.
Defined.

(** ** Platform connections *)

(** The status written by [updatePlatformConfig] is the one read back, for a
    platform that is registered. *)
Lemma platform_status_updated platformId status s :
  platform_status platformId (with_status platformId status s)
  = option_map (fun _ => status) (platform_status platformId s).
Proof.
  unfold platform_status, with_status; cbn.
  induction (StreamData.platforms s) as [ | platform platforms IH ];
    [ reflexivity | ].
  cbn. destruct (String.eqb (StreamPlatform.id platform) platformId) eqn:Hid.
  - cbn. rewrite Hid. reflexivity.
  - rewrite Hid. exact IH.
Qed.

Lemma connectToPlatform_run round_trip platformId s :
  connectToPlatform round_trip platformId s =
  let s1 := with_status platformId StreamPlatform.connecting s in
  let s2 :=
    with_status platformId (landed round_trip StreamPlatform.connected) s1 in
  mkRun round_trip s2 [s1; s2].
Proof. destruct round_trip as [[] | e]; reflexivity. Qed.

Lemma disconnectFromPlatform_run round_trip platformId s :
  disconnectFromPlatform round_trip platformId s =
  let s1 :=
    with_status platformId (landed round_trip StreamPlatform.disconnected) s in
  mkRun round_trip s1 [s1].
Proof. destruct round_trip as [[] | e]; reflexivity. Qed.

(** C9: for a registered platform, [connectToPlatform] commits the status
    [connecting] first and then [connected] when the round trip resolves,
    [error] when it rejects (and then the rejection is rethrown);
    [disconnectFromPlatform] commits [disconnected] when the round trip
    resolves and [error] when it rejects.  With the round trip of the
    source, which always resolves, a connect goes through [connecting] then
    [connected]. *)
Theorem platform_status_transitions
    (platformId : string) (s : StreamData.t) (before : StreamPlatform.Status) :
  platform_status platformId s = Some before ->
  (forall round_trip,
      let r := connectToPlatform round_trip platformId s in
      map (platform_status platformId) (commits r)
      = [ Some StreamPlatform.connecting;
          Some (landed round_trip StreamPlatform.connected) ]
      /\ platform_status platformId (final r)
         = Some (landed round_trip StreamPlatform.connected)
      /\ outcome r = round_trip)
  /\ (forall round_trip,
         let r := disconnectFromPlatform round_trip platformId s in
         map (platform_status platformId) (commits r)
         = [ Some (landed round_trip StreamPlatform.disconnected) ]
         /\ platform_status platformId (final r)
            = Some (landed round_trip StreamPlatform.disconnected)
         /\ outcome r = round_trip)
  /\ map (platform_status platformId)
         (commits (connectToPlatform simulated_round_trip platformId s))
     = [Some StreamPlatform.connecting; Some StreamPlatform.connected].
Proof.
  intros Hbefore.
  assert (Hconnect : forall round_trip,
    let r := connectToPlatform round_trip platformId s in
    map (platform_status platformId) (commits r)
    = [ Some StreamPlatform.connecting;
        Some (landed round_trip StreamPlatform.connected) ]
    /\ platform_status platformId (final r)
       = Some (landed round_trip StreamPlatform.connected)
    /\ outcome r = round_trip).
  { intros round_trip. cbn zeta. rewrite connectToPlatform_run.
    cbn [commits final outcome map].
    rewrite !platform_status_updated, Hbefore. repeat split. }
  split; [ exact Hconnect | split ].
  - intros round_trip. cbn zeta. rewrite disconnectFromPlatform_run.
    cbn [commits final outcome map].
    rewrite !platform_status_updated, Hbefore. repeat split.
  - exact (proj1 (Hconnect simulated_round_trip)).
Qed.

Lemma platform_status_transitions_witness :
  map (platform_status "youtube")
      (commits (connectToPlatform simulated_round_trip "youtube"
                  initialStreamData))
  = [Some StreamPlatform.connecting; Some StreamPlatform.connected]
  /\ map (platform_status "youtube")
         (commits (connectToPlatform (Rejected (Error "timeout")) "youtube"
                     initialStreamData))
     = [Some StreamPlatform.connecting; Some StreamPlatform.error]
  /\ map (platform_status "youtube")
         (commits (disconnectFromPlatform (Resolved tt) "youtube"
                     initialStreamData))
     = [Some StreamPlatform.disconnected].
Proof.
  destruct (platform_status_transitions "youtube" initialStreamData
              StreamPlatform.disconnected eq_refl)
    as (Hconnect & Hdisconnect & Hsource).
  split; [ exact Hsource | split ].
  - exact (proj1 (Hconnect (Rejected (Error "timeout")))).
  - exact (proj1 (Hdisconnect (Resolved tt))).
Defined.

(** ** More on the platform list *)

Lemma spread_own_platforms (s : StreamData.t) :
  StreamData.spread s [StreamData.Platforms (StreamData.platforms s)] = s.
Proof. destruct s; reflexivity. Qed.

Lemma platform_spread_keeps_id (config : list StreamPlatform.Field) :
  keeps_id config ->
  forall platform,
    StreamPlatform.id (StreamPlatform.spread platform config)
    = StreamPlatform.id platform.
Proof.
  unfold StreamPlatform.spread.
  induction config as [ | field config IH ]; intros Hkeeps platform;
    [ reflexivity | ].
  cbn [fold_left]. rewrite IH.
  - destruct field; try reflexivity.
    exfalso. apply (Hkeeps v). left. reflexivity.
  - intros v Hin. apply (Hkeeps v). right. exact Hin.
Qed.

(** X1: An id that no platform carries: [updatePlatformConfig] re-commits the
    snapshot it found. *)
Theorem updatePlatformConfig_unknown_id
    (platformId : string) (config : list StreamPlatform.Field)
    (s : StreamData.t) :
  platform_entry platformId s = None ->
  final (updatePlatformConfig platformId config s) = s
  /\ commits (updatePlatformConfig platformId config s) = [s].
Proof.
  intros Hnone. unfold platform_entry in Hnone.
  assert (Hmap :
    map (fun platform =>
           if String.eqb (StreamPlatform.id platform) platformId
           then StreamPlatform.spread platform config
           else platform)
        (StreamData.platforms s)
    = StreamData.platforms s).
  { rewrite <- (map_id (StreamData.platforms s)) at 2.
    apply map_ext_in. intros platform Hin.
    rewrite (find_none _ _ Hnone platform Hin). reflexivity. }
  unfold updatePlatformConfig, setStreamData; cbn [final commits].
  rewrite Hmap, spread_own_platforms. split; reflexivity.
Qed.

Lemma updatePlatformConfig_unknown_id_witness :
  final (updatePlatformConfig "orkut"
           [StreamPlatform.Enabled true] initialStreamData)
  = initialStreamData.
Proof.
  exact (proj1 (updatePlatformConfig_unknown_id "orkut"
                  [StreamPlatform.Enabled true] initialStreamData eq_refl)).
Defined.

(** X2: What [updatePlatformConfig] writes under an id is what is read back
    under it: the entry found before, with the keys of the config written
    over it. *)
Theorem updatePlatformConfig_lookup
    (platformId : string) (config : list StreamPlatform.Field)
    (s : StreamData.t) (platform : StreamPlatform.t) :
  keeps_id config ->
  platform_entry platformId s = Some platform ->
  platform_entry platformId (final (updatePlatformConfig platformId config s))
  = Some (StreamPlatform.spread platform config).
Proof.
  intros Hkeeps. unfold platform_entry; cbn.
  induction (StreamData.platforms s) as [ | first platforms IH ];
    [ discriminate | ].
  cbn. destruct (String.eqb (StreamPlatform.id first) platformId) eqn:Hid.
  - intros [= <-]. cbn.
    rewrite (platform_spread_keeps_id config Hkeeps), Hid. reflexivity.
  - rewrite Hid. exact IH.
Qed.

Lemma updatePlatformConfig_lookup_witness :
  platform_entry "rtmp"
    (final (updatePlatformConfig "rtmp"
              [ StreamPlatform.Enabled true;
                StreamPlatform.RtmpUrl (Some "rtmp://a/live"%string) ]
              initialStreamData))
  = Some (StreamPlatform.mk "rtmp" "RTMP Próprio" true
            (Some "rtmp://a/live"%string) None StreamPlatform.disconnected).
Proof.
  refine (updatePlatformConfig_lookup "rtmp"
            [ StreamPlatform.Enabled true;
              StreamPlatform.RtmpUrl (Some "rtmp://a/live"%string) ]
            initialStreamData _ _ eq_refl).
  intros v [H | [H | []]]; discriminate.
Defined.

(** The entries under the other ids stay as they are. *)
Lemma updatePlatformConfig_other_entries
    (platformId other : string) (config : list StreamPlatform.Field)
    (s : StreamData.t) :
  keeps_id config ->
  other <> platformId ->
  platform_entry other (final (updatePlatformConfig platformId config s))
  = platform_entry other s.
Proof.
  intros Hkeeps Hother. unfold platform_entry; cbn.
  induction (StreamData.platforms s) as [ | first platforms IH ];
    [ reflexivity | ].
  cbn. destruct (String.eqb (StreamPlatform.id first) platformId) eqn:Hid.
  - rewrite (platform_spread_keeps_id config Hkeeps).
    apply String.eqb_eq in Hid.
    replace (String.eqb (StreamPlatform.id first) other) with false.
    + exact IH.
    + symmetry. apply String.eqb_neq. congruence.
  - rewrite IH. reflexivity.
Qed.

Lemma updatePlatformConfig_only_platforms
    (platformId : string) (config : list StreamPlatform.Field)
    (s0 : StreamData.t) :
  keeps (only_platforms_differ s0) (updatePlatformConfig platformId config).
Proof.
  apply keeps_setStreamData. intros s Hs.
  unfold only_platforms_differ in *. rewrite <- Hs at 2.
  destruct s; reflexivity.
Qed.

Lemma status_config_keeps_id (status : StreamPlatform.Status) :
  keeps_id [StreamPlatform.Status_ status].
Proof. intros v [H | []]; discriminate. Qed.

(** X3: Connecting to or disconnecting from one platform changes, in every
    snapshot committed on the way, neither the entry of any other platform
    nor any field of the snapshot besides the platform list. *)
Theorem platform_round_trip_is_local
    (round_trip : Settled unit) (platformId other : string)
    (s : StreamData.t) :
  other <> platformId ->
  Forall (fun s' => platform_entry other s' = platform_entry other s
                    /\ only_platforms_differ s s')
         (commits (connectToPlatform round_trip platformId s)
          ++ commits (disconnectFromPlatform round_trip platformId s)).
Proof.
  intros Hother.
  set (local := fun s' => platform_entry other s' = platform_entry other s
                          /\ only_platforms_differ s s').
  assert (Hstart : local s).
  { split; [ reflexivity | apply spread_own_platforms ]. }
  assert (Hstep : forall status,
    keeps local
          (updatePlatformConfig platformId [StreamPlatform.Status_ status])).
  { intros status. apply keeps_setStreamData. intros s' [Hentry Hrest].
    split.
    - rewrite <- Hentry.
      apply (updatePlatformConfig_other_entries platformId other
               [StreamPlatform.Status_ status] s');
        [ apply status_config_keeps_id | exact Hother ].
    - apply (updatePlatformConfig_only_platforms platformId
               [StreamPlatform.Status_ status] s s' Hrest). }
  apply Forall_app; split.
  - assert (Hkeeps : keeps local (connectToPlatform round_trip platformId)).
    { unfold connectToPlatform. keeps_structure; apply Hstep. }
    exact (proj2 (Hkeeps s Hstart)).
  - assert (Hkeeps : keeps local (disconnectFromPlatform round_trip platformId)).
    { unfold disconnectFromPlatform. keeps_structure; apply Hstep. }
    exact (proj2 (Hkeeps s Hstart)).
Qed.

Lemma platform_round_trip_is_local_witness :
  Forall (fun s' => platform_entry "twitch" s'
                    = platform_entry "twitch" initialStreamData
                    /\ only_platforms_differ initialStreamData s')
         (commits (connectToPlatform simulated_round_trip "youtube"
                     initialStreamData)
          ++ commits (disconnectFromPlatform simulated_round_trip "youtube"
                        initialStreamData)).
Proof.
  apply (platform_round_trip_is_local simulated_round_trip "youtube" "twitch"
           initialStreamData).
  discriminate.
Defined.

(** X4: Connecting and then disconnecting a platform that was disconnected
    brings the whole snapshot back. *)
Theorem connect_then_disconnect_restores
    (platformId : string) (s : StreamData.t) :
  (forall platform,
      In platform (StreamData.platforms s) ->
      StreamPlatform.id platform = platformId ->
      StreamPlatform.status platform = StreamPlatform.disconnected) ->
  final (disconnectFromPlatform (Resolved tt) platformId
           (final (connectToPlatform (Resolved tt) platformId s)))
  = s.
Proof.
  intros Hdisconnected.
  rewrite connectToPlatform_run, disconnectFromPlatform_run.
  cbn [final landed]. unfold with_status, updatePlatformConfig, setStreamData.
  cbn [final StreamData.spread fold_left StreamData.assign StreamData.platforms].
  rewrite !map_map.
  assert (Hmap :
    map (fun platform =>
           let once :=
             if String.eqb (StreamPlatform.id platform) platformId
             then StreamPlatform.spread platform
                    [StreamPlatform.Status_ StreamPlatform.connecting]
             else platform in
           let twice :=
             if String.eqb (StreamPlatform.id once) platformId
             then StreamPlatform.spread once
                    [StreamPlatform.Status_ StreamPlatform.connected]
             else once in
           if String.eqb (StreamPlatform.id twice) platformId
           then StreamPlatform.spread twice
                  [StreamPlatform.Status_ StreamPlatform.disconnected]
           else twice)
        (StreamData.platforms s)
    = StreamData.platforms s).
  { rewrite <- (map_id (StreamData.platforms s)) at 2.
    apply map_ext_in. intros platform Hin. cbn zeta.
    destruct (String.eqb (StreamPlatform.id platform) platformId) eqn:Hid.
    - cbn. rewrite Hid. cbn. rewrite Hid. cbn.
      apply String.eqb_eq in Hid.
      pose proof (Hdisconnected platform Hin Hid) as Hstatus.
      destruct platform; cbn in *. rewrite Hstatus. reflexivity.
    - rewrite Hid. rewrite Hid. reflexivity. }
  cbn zeta in Hmap. rewrite Hmap. destruct s; reflexivity.
Qed.

Lemma connect_then_disconnect_restores_witness :
  final (disconnectFromPlatform (Resolved tt) "kwai"
           (final (connectToPlatform (Resolved tt) "kwai" playing_7)))
  = playing_7.
Proof.
  apply (connect_then_disconnect_restores "kwai" playing_7).
  intros platform Hin _.
  vm_compute in Hin.
  repeat (destruct Hin as [<- | Hin]; [ reflexivity | ]).
  destruct Hin.
Defined.

(** ** More on playback navigation *)

Lemma moved_to_own_index (s : StreamData.t) (p : Playlist.t) :
  StreamData.currentPlaylist s = Some p ->
  moved_to s p (Playlist.currentVideoIndex p) = s.
Proof. destruct s, p; cbn. intros ->. reflexivity. Qed.

Lemma moved_to_twice (s : StreamData.t) (p : Playlist.t) (i j : Z) :
  moved_to (moved_to s p i) (Playlist.with_currentVideoIndex p i) j
  = moved_to s p j.
Proof. reflexivity. Qed.

Lemma after_nextVideo (env : Env) (s : StreamData.t) (p : Playlist.t) :
  StreamData.currentPlaylist s = Some p ->
  Playlist.loop p = true
  \/ Playlist.currentVideoIndex p + 1 < Playlist.length p ->
  after (NextVideo env) s
  = moved_to s p
      (if Playlist.currentVideoIndex p + 1 <? Playlist.length p
       then Playlist.currentVideoIndex p + 1
       else 0).
Proof.
  intros Hp Hgoes_on. unfold after, perform, invoke, nextVideo.
  rewrite Hp, Z.geb_leb.
  destruct (Playlist.currentVideoIndex p + 1 <? Playlist.length p) eqn:Hnext.
  - apply Z.ltb_lt in Hnext.
    replace (Playlist.length p <=? Playlist.currentVideoIndex p + 1)
      with false by (symmetry; apply Z.leb_gt; lia).
    reflexivity.
  - apply Z.ltb_ge in Hnext.
    replace (Playlist.length p <=? Playlist.currentVideoIndex p + 1)
      with true by (symmetry; apply Z.leb_le; lia).
    destruct Hgoes_on as [Hloop | Hlt]; [ | lia ].
    rewrite Hloop. reflexivity.
Qed.

Lemma after_previousVideo (s : StreamData.t) (p : Playlist.t) :
  StreamData.currentPlaylist s = Some p ->
  after PreviousVideo s
  = moved_to s p
      (if Playlist.currentVideoIndex p - 1 <? 0
       then Playlist.length p - 1
       else Playlist.currentVideoIndex p - 1).
Proof.
  intros Hp. unfold after, perform, invoke, previousVideo.
  rewrite Hp. reflexivity.
Qed.

Lemma nextVideo_repeatedly
    (env : Env) (s : StreamData.t) (p : Playlist.t) (k : nat) :
  StreamData.currentPlaylist s = Some p ->
  valid_index p ->
  Playlist.loop p = true ->
  repeatedly k (NextVideo env) s
  = moved_to s p
      ((Playlist.currentVideoIndex p + Z.of_nat k) mod Playlist.length p).
Proof.
  intros Hp Hvalid Hloop.
  assert (Hlength : 0 < Playlist.length p) by (unfold valid_index in *; lia).
  induction k as [ | k IH ].
  - change (repeatedly 0 (NextVideo env) s) with s.
    cbn [Z.of_nat]. rewrite Z.add_0_r.
    rewrite Z.mod_small by exact Hvalid.
    symmetry. apply moved_to_own_index. exact Hp.
  - change (repeatedly (S k) (NextVideo env) s)
      with (after (NextVideo env) (repeatedly k (NextVideo env) s)).
    rewrite IH.
    set (i := (Playlist.currentVideoIndex p + Z.of_nat k) mod Playlist.length p).
    assert (Hi : 0 <= i < Playlist.length p)
      by (apply Z.mod_pos_bound; exact Hlength).
    rewrite (after_nextVideo env _ (Playlist.with_currentVideoIndex p i));
      [ | reflexivity | left; exact Hloop ].
    rewrite moved_to_twice.
    change (Playlist.currentVideoIndex (Playlist.with_currentVideoIndex p i))
      with i.
    change (Playlist.length (Playlist.with_currentVideoIndex p i))
      with (Playlist.length p).
    f_equal.
    replace (Playlist.currentVideoIndex p + Z.of_nat (S k))
      with (Playlist.currentVideoIndex p + Z.of_nat k + 1) by lia.
    rewrite <- Z.add_mod_idemp_l by lia. fold i.
    destruct (i + 1 <? Playlist.length p) eqn:Hnext.
    + apply Z.ltb_lt in Hnext. rewrite Z.mod_small by lia. reflexivity.
    + apply Z.ltb_ge in Hnext.
      replace (i + 1) with (Playlist.length p) by lia.
      rewrite Z_mod_same_full. reflexivity.
Qed.

(** X5: On a looping playlist, as many [nextVideo] as there are videos bring the
    snapshot back to where it was, whatever the remote would answer. *)
Theorem nextVideo_full_cycle (env : Env) (s : StreamData.t) (p : Playlist.t) :
  StreamData.currentPlaylist s = Some p ->
  valid_index p ->
  Playlist.loop p = true ->
  repeatedly (length (Playlist.videos p)) (NextVideo env) s = s.
Proof.
  intros Hp Hvalid Hloop.
  rewrite (nextVideo_repeatedly env s p _ Hp Hvalid Hloop).
  fold (Playlist.length p).
  replace (Playlist.currentVideoIndex p + Playlist.length p)
    with (Playlist.currentVideoIndex p + 1 * Playlist.length p) by lia.
  rewrite Z.mod_add by (unfold valid_index in Hvalid; lia).
  rewrite Z.mod_small by exact Hvalid.
  apply moved_to_own_index. exact Hp.
Qed.

Lemma nextVideo_full_cycle_witness :
  repeatedly 3 (NextVideo env_offline) (playing second_video_loop)
  = playing second_video_loop.
Proof.
  apply (nextVideo_full_cycle env_offline (playing second_video_loop)
           second_video_loop eq_refl).
  - unfold valid_index; cbn; lia.
  - reflexivity.
Defined.

(** X6: [previousVideo] undoes [nextVideo] unless the playlist ended without
    loop, and [nextVideo] undoes [previousVideo] unless [previousVideo]
    wrapped on a playlist without loop. *)
Theorem nextVideo_previousVideo_inverse
    (env : Env) (s : StreamData.t) (p : Playlist.t) :
  StreamData.currentPlaylist s = Some p ->
  valid_index p ->
  (Playlist.loop p = true
   \/ Playlist.currentVideoIndex p + 1 < Playlist.length p ->
   after PreviousVideo (after (NextVideo env) s) = s)
  /\ (Playlist.loop p = true \/ 0 < Playlist.currentVideoIndex p ->
      after (NextVideo env) (after PreviousVideo s) = s).
Proof.
  intros Hp Hvalid. unfold valid_index in Hvalid. split.
  - intros Hgoes_on. rewrite (after_nextVideo env s p Hp Hgoes_on).
    set (i := if Playlist.currentVideoIndex p + 1 <? Playlist.length p
              then Playlist.currentVideoIndex p + 1 else 0).
    rewrite (after_previousVideo _ (Playlist.with_currentVideoIndex p i))
      by reflexivity.
    rewrite moved_to_twice.
    change (Playlist.currentVideoIndex (Playlist.with_currentVideoIndex p i))
      with i.
    change (Playlist.length (Playlist.with_currentVideoIndex p i))
      with (Playlist.length p).
    rewrite <- (moved_to_own_index s p Hp) at 2. f_equal.
    unfold i.
    destruct (Playlist.currentVideoIndex p + 1 <? Playlist.length p) eqn:Hnext.
    + apply Z.ltb_lt in Hnext.
      replace (Playlist.currentVideoIndex p + 1 - 1 <? 0) with false
        by (symmetry; apply Z.ltb_ge; lia).
      lia.
    + apply Z.ltb_ge in Hnext. cbn. lia.
  - intros Hgoes_on. rewrite (after_previousVideo s p Hp).
    set (i := if Playlist.currentVideoIndex p - 1 <? 0
              then Playlist.length p - 1
              else Playlist.currentVideoIndex p - 1).
    assert (Hi : i = if Playlist.currentVideoIndex p - 1 <? 0
                     then Playlist.length p - 1
                     else Playlist.currentVideoIndex p - 1) by reflexivity.
    rewrite (after_nextVideo env _ (Playlist.with_currentVideoIndex p i));
      [ | reflexivity | ].
    + rewrite moved_to_twice.
      change (Playlist.currentVideoIndex (Playlist.with_currentVideoIndex p i))
        with i.
      change (Playlist.length (Playlist.with_currentVideoIndex p i))
        with (Playlist.length p).
      rewrite <- (moved_to_own_index s p Hp) at 2. f_equal.
      destruct (Playlist.currentVideoIndex p - 1 <? 0) eqn:Hwrap.
      * apply Z.ltb_lt in Hwrap.
        replace (i + 1 <? Playlist.length p) with false
          by (symmetry; apply Z.ltb_ge; lia).
        lia.
      * apply Z.ltb_ge in Hwrap.
        replace (i + 1 <? Playlist.length p) with true
          by (symmetry; apply Z.ltb_lt; lia).
        lia.
    + change (Playlist.currentVideoIndex (Playlist.with_currentVideoIndex p i))
        with i.
      change (Playlist.length (Playlist.with_currentVideoIndex p i))
        with (Playlist.length p).
      change (Playlist.loop (Playlist.with_currentVideoIndex p i))
        with (Playlist.loop p).
      destruct Hgoes_on as [Hloop | Hpos]; [ left; exact Hloop | right ].
      replace (Playlist.currentVideoIndex p - 1 <? 0) with false in Hi
        by (symmetry; apply Z.ltb_ge; lia).
      lia.
Qed.

Lemma nextVideo_previousVideo_inverse_witness :
  after PreviousVideo (after (NextVideo env_offline) playing_7) = playing_7
  /\ after (NextVideo env_offline) (after PreviousVideo playing_7) = playing_7.
Proof.
  assert (Hvalid : valid_index
                     (Playlist.mk 7 "Matinal" [11; 12; 13] 0 true true false))
    by (unfold valid_index; cbn; lia).
  destruct (nextVideo_previousVideo_inverse env_offline playing_7 _
              eq_refl Hvalid) as [Hnp Hpn].
  split; [ apply Hnp | apply Hpn ]; left; reflexivity.
Defined.

(** X7: [togglePlayPause] twice brings the snapshot back; once, it flips
    [isPlaying] and leaves the rest of the playback state alone. *)
Theorem togglePlayPause_involution (s : StreamData.t) :
  after TogglePlayPause (after TogglePlayPause s) = s
  /\ (forall p,
         StreamData.currentPlaylist s = Some p ->
         StreamData.currentPlaylist (after TogglePlayPause s)
         = Some (Playlist.with_isPlaying p (negb (Playlist.isPlaying p)))).
Proof.
  unfold after, perform, invoke, togglePlayPause. split.
  - destruct (StreamData.currentPlaylist s) as [p | ] eqn:Hp.
    + cbn. destruct s, p; cbn in *. rewrite negb_involutive, Hp. reflexivity.
    + cbn. rewrite Hp. reflexivity.
  - intros p Hp. rewrite Hp. reflexivity.
Qed.

Lemma togglePlayPause_involution_witness :
  after TogglePlayPause (after TogglePlayPause playing_7) = playing_7
  /\ StreamData.currentPlaylist (after TogglePlayPause playing_7)
     = Some (Playlist.mk 7 "Matinal" [11; 12; 13] 0 false true false).
Proof.
  destruct (togglePlayPause_involution playing_7) as [Htwice Honce].
  split; [ exact Htwice | exact (Honce _ eq_refl) ].
Defined.

(** ** More invariants of the reachable snapshots *)

Lemma session_invariant_of_reachable (s : StreamData.t) :
  reachable s -> session_invariant s.
Proof.
  induction 1 as [ | s c s' Hreach IH Hin | s c Hreach IH ].
  - unfold session_invariant, present; cbn.
    split; split; intros H; congruence.
  - destruct (perform_keeps_session_invariant c s IH) as [_ Hcommits].
    rewrite Forall_forall in Hcommits. apply Hcommits. exact Hin.
  - destruct (perform_keeps_session_invariant c s IH) as [Hfinal _].
    exact Hfinal.
Qed.

(** X8: Outside a playlist session (before any start, or after a stop), the four
    navigation operations commit nothing, and [nextVideo] sends no stop
    request: its run does not depend on the remote. *)
Theorem navigation_without_session (s : StreamData.t) :
  reachable s ->
  StreamData.streamType s <> StreamData.playlist ->
  (forall env, perform (NextVideo env) s = mkRun (Resolved tt) s [])
  /\ perform PreviousVideo s = mkRun (Resolved tt) s []
  /\ (forall index, perform (PlayVideo index) s = mkRun (Resolved tt) s [])
  /\ perform TogglePlayPause s = mkRun (Resolved tt) s [].
Proof.
  intros Hreach Hkind.
  destruct (session_invariant_of_reachable s Hreach) as [[Hplaylist _] _].
  assert (Hnone : StreamData.currentPlaylist s = None).
  { destruct (StreamData.currentPlaylist s) as [p | ]; [ | reflexivity ].
    exfalso. apply Hkind, Hplaylist. discriminate. }
  unfold perform, invoke, nextVideo, previousVideo, playVideo, togglePlayPause.
  rewrite Hnone. repeat split.
Qed.

Lemma navigation_without_session_witness :
  let idle := final (invoke (stopStream env_accepting) playing_7) in
  perform (NextVideo env_refusing) idle = mkRun (Resolved tt) idle []
  /\ perform (PlayVideo 1) idle = mkRun (Resolved tt) idle [].
Proof.
  cbn zeta.
  assert (Hreach : reachable (final (invoke (stopStream env_accepting) playing_7))).
  { apply (reach_final playing_7 (StopStream env_accepting)).
    exact (reach_final initialStreamData
             (StartPlaylistStream env_accepting 7 no_options) reach_initial). }
  destruct (navigation_without_session _ Hreach ltac:(discriminate))
    as (Hnext & _ & Hplay & _).
  split; [ apply Hnext | apply Hplay ].
Defined.

Lemma stopStream_keeps_fixed_part env streamData :
  keeps fixed_part (stopStream env streamData).
Proof.
  unfold stopStream. keeps_structure.
  apply keeps_updateStreamData. intros s (_ & Hname & Hplatforms).
  unfold fixed_part; cbn. repeat split; [ discriminate | assumption .. ].
Qed.

Lemma playlist_update_keeps_fixed_part (p : option Playlist.t) :
  keeps fixed_part (updateStreamData [StreamData.CurrentPlaylist p]).
Proof. apply keeps_updateStreamData. intros s Hs. exact Hs. Qed.

Lemma perform_keeps_fixed_part (c : Command) : keeps fixed_part (perform c).
Proof.
  destruct c; cbn [perform].
  - unfold startPlaylistStream. keeps_structure.
    apply keeps_updateStreamData. intros s (_ & Hname & Hplatforms).
    unfold fixed_part; cbn. repeat split; [ discriminate | assumption .. ].
  - intros s Hs. apply stopStream_keeps_fixed_part; exact Hs.
  - unfold refreshStreamStatus. keeps_structure;
      apply keeps_updateStreamData; intros s Hs; exact Hs.
  - intros s Hs. unfold invoke.
    assert (H : keeps fixed_part (nextVideo env s)).
    { unfold nextVideo. keeps_structure;
        apply playlist_update_keeps_fixed_part
        || apply stopStream_keeps_fixed_part. }
    exact (H s Hs).
  - intros s Hs. unfold invoke.
    assert (H : keeps fixed_part (previousVideo s)).
    { unfold previousVideo. keeps_structure.
      apply playlist_update_keeps_fixed_part. }
    exact (H s Hs).
  - intros s Hs. unfold invoke.
    assert (H : keeps fixed_part (playVideo index s)).
    { unfold playVideo. keeps_structure.
      apply playlist_update_keeps_fixed_part. }
    exact (H s Hs).
  - intros s Hs. unfold invoke.
    assert (H : keeps fixed_part (togglePlayPause s)).
    { unfold togglePlayPause. keeps_structure.
      apply playlist_update_keeps_fixed_part. }
    exact (H s Hs).
  - apply keeps_setStreamData. intros s (Hkind & Hname & Hplatforms).
    unfold fixed_part; cbn. rewrite length_map. repeat split; assumption.
  - unfold connectToPlatform. keeps_structure;
      (apply keeps_setStreamData; intros s (Hkind & Hname & Hplatforms);
       unfold fixed_part; cbn; rewrite length_map; repeat split; assumption).
  - unfold disconnectFromPlatform. keeps_structure;
      (apply keeps_setStreamData; intros s (Hkind & Hname & Hplatforms);
       unfold fixed_part; cbn; rewrite length_map; repeat split; assumption).
Qed.

(** X9: No sequence of operations ever puts the session in the [obs] kind,
    renames the application, or adds or removes a platform: every reachable
    snapshot has a stream type other than [obs], the application name
    [live] and ten platforms. *)
Theorem reachable_fixed_part (s : StreamData.t) :
  reachable s -> fixed_part s.
Proof.
  induction 1 as [ | s c s' Hreach IH Hin | s c Hreach IH ].
  - unfold fixed_part; cbn. repeat split. discriminate.
  - destruct (perform_keeps_fixed_part c s IH) as [_ Hcommits].
    rewrite Forall_forall in Hcommits. apply Hcommits. exact Hin.
  - destruct (perform_keeps_fixed_part c s IH) as [Hfinal _].
    exact Hfinal.
Qed.

Lemma reachable_fixed_part_witness : fixed_part playing_7.
Proof.
  apply reachable_fixed_part.
  exact (reach_final initialStreamData
           (StartPlaylistStream env_accepting 7 no_options) reach_initial).
Defined.

(** *** The index stays valid *)

Lemma keep_playlist_keeps_playback_valid (data : list StreamData.Field) :
  (forall s, StreamData.currentPlaylist (StreamData.spread s data)
             = StreamData.currentPlaylist s) ->
  keeps playback_valid (updateStreamData data).
Proof.
  intros Hsame. apply keeps_updateStreamData.
  intros s Hs p Hp. rewrite Hsame in Hp. exact (Hs p Hp).
Qed.

Lemma updatePlatformConfig_keeps_playback_valid platformId config :
  keeps playback_valid (updatePlatformConfig platformId config).
Proof. apply keeps_setStreamData. intros s Hs. exact Hs. Qed.

Lemma stopStream_keeps_playback_valid env streamData :
  keeps playback_valid (stopStream env streamData).
Proof.
  unfold stopStream. keeps_structure.
  apply keeps_updateStreamData. intros s _ p Hp. discriminate.
Qed.

Lemma replace_playlist_keeps_playback_valid (s : StreamData.t) (p : Playlist.t) :
  valid_index p ->
  let r := updateStreamData [StreamData.CurrentPlaylist (Some p)] s in
  playback_valid (final r) /\ Forall playback_valid (commits r).
Proof.
  intros Hvalid.
  assert (H : playback_valid
                (StreamData.spread s [StreamData.CurrentPlaylist (Some p)])).
  { intros p' [= <-]. exact Hvalid. }
  cbn; split; [ exact H | constructor; [ exact H | constructor ] ].
Qed.

Lemma startPlaylistStream_keeps_playback_valid env playlistId options :
  sort_permutes env ->
  keeps playback_valid (startPlaylistStream env playlistId options).
Proof.
  intros Hsort s Hs.
  assert (Hsame : playback_valid s /\ Forall playback_valid []).
  { split; [ exact Hs | constructor ]. }
  rewrite startPlaylistStream_run.
  destruct (getToken env) as [token | e0]; [ | exact Hsame ].
  destruct (fetch_playlist env playlistId token) as [response | e0];
    [ | exact Hsame ].
  destruct (Api.ok response); cbn [negb]; [ | exact Hsame ].
  destruct (Api.json response) as [playlist | e0]; [ | exact Hsame ].
  destruct (fetch_playlist_videos env playlistId token)
    as [videosResponse | e0]; [ | exact Hsame ].
  destruct (Api.ok videosResponse); cbn [negb]; [ | exact Hsame ].
  destruct (Api.json videosResponse) as [playlistVideos | e0];
    [ | exact Hsame ].
  destruct (Z.of_nat _ =? 0) eqn:Hempty; [ exact Hsame | ].
  apply Z.eqb_neq in Hempty.
  destruct (fetch_start_internal env token _) as [startResponse | e0];
    [ | exact Hsame ].
  destruct (Api.json startResponse) as [result | e0]; [ | exact Hsame ].
  destruct (Api.StartResult.success result); [ | exact Hsame ].
  assert (Hvalid :
    playback_valid
      (started env playlistId options playlist playlistVideos result s)).
  { intros p [= <-]. unfold valid_index, Playlist.length.
    cbn [Playlist.currentVideoIndex Playlist.videos Api.StartRequest.videos
         start_request].
    cbv zeta.
    destruct (truthy (opt_shuffle options));
      [ rewrite (Permutation_length (Hsort _)) | ]; lia. }
  cbn [final commits].
  split; [ exact Hvalid | constructor; [ exact Hvalid | constructor ] ].
Qed.

Lemma perform_keeps_playback_valid (c : Command) :
  plausible c -> keeps playback_valid (perform c).
Proof.
  destruct c; cbn [perform plausible]; intros Hplausible.
  - apply startPlaylistStream_keeps_playback_valid. exact Hplausible.
  - intros s Hs. apply stopStream_keeps_playback_valid; exact Hs.
  - unfold refreshStreamStatus. keeps_structure;
      apply keep_playlist_keeps_playback_valid; reflexivity.
  - intros s Hs. unfold invoke, nextVideo.
    destruct (StreamData.currentPlaylist s) as [p | ] eqn:Hp;
      [ | exact (keeps_ret _ tt s Hs) ].
    pose proof (Hs p Hp) as Hvalid. unfold valid_index in Hvalid.
    destruct (Playlist.currentVideoIndex p + 1 >=? Playlist.length p) eqn:Hend;
      [ destruct (Playlist.loop p) | ].
    + apply replace_playlist_keeps_playback_valid.
      unfold valid_index, Playlist.length in *; cbn. lia.
    + exact (keeps_detach _ _ (stopStream_keeps_playback_valid env s) s Hs).
    + rewrite Z.geb_leb in Hend. apply Z.leb_gt in Hend.
      apply replace_playlist_keeps_playback_valid.
      unfold valid_index, Playlist.length in *; cbn. lia.
  - intros s Hs. unfold invoke, previousVideo.
    destruct (StreamData.currentPlaylist s) as [p | ] eqn:Hp;
      [ | exact (keeps_ret _ tt s Hs) ].
    pose proof (Hs p Hp) as Hvalid. unfold valid_index in Hvalid.
    apply replace_playlist_keeps_playback_valid.
    unfold valid_index, Playlist.length in *; cbn.
    destruct (Playlist.currentVideoIndex p - 1 <? 0) eqn:Hwrap;
      [ apply Z.ltb_lt in Hwrap | apply Z.ltb_ge in Hwrap ]; lia.
  - intros s Hs. unfold invoke, playVideo.
    destruct (StreamData.currentPlaylist s) as [p | ] eqn:Hp;
      [ | exact (keeps_ret _ tt s Hs) ].
    destruct (index >=? 0) eqn:Hlow;
      destruct (index <? Playlist.length p) eqn:Hhigh; cbn [andb];
      try exact (keeps_ret _ tt s Hs).
    apply Z.geb_le in Hlow. apply Z.ltb_lt in Hhigh.
    apply replace_playlist_keeps_playback_valid.
    unfold valid_index, Playlist.length in *; cbn. lia.
  - intros s Hs. unfold invoke, togglePlayPause.
    destruct (StreamData.currentPlaylist s) as [p | ] eqn:Hp;
      [ | exact (keeps_ret _ tt s Hs) ].
    apply replace_playlist_keeps_playback_valid. exact (Hs p Hp).
  - apply updatePlatformConfig_keeps_playback_valid.
  - unfold connectToPlatform.
    keeps_structure; apply updatePlatformConfig_keeps_playback_valid.
  - unfold disconnectFromPlatform.
    keeps_structure; apply updatePlatformConfig_keeps_playback_valid.
Qed.

(** X10: As long as a shuffle returns the videos it was given, every reachable
    snapshot with a playback state has a non-empty video list and
    [0 <= currentVideoIndex < videos.length]. *)
Theorem reachable_playback_valid (s : StreamData.t) (p : Playlist.t) :
  reachable_plausibly s ->
  StreamData.currentPlaylist s = Some p ->
  valid_index p /\ Playlist.videos p <> [].
Proof.
  intros Hreach Hp.
  assert (Hvalid : playback_valid s).
  { clear p Hp.
    induction Hreach
      as [ | s c s' Hreach IH Hplausible Hin | s c Hreach IH Hplausible ].
    - intros p Hp. discriminate.
    - destruct (perform_keeps_playback_valid c Hplausible s IH)
        as [_ Hcommits].
      rewrite Forall_forall in Hcommits. apply Hcommits. exact Hin.
    - destruct (perform_keeps_playback_valid c Hplausible s IH)
        as [Hfinal _].
      exact Hfinal. }
  split; [ exact (Hvalid p Hp) | ].
  pose proof (Hvalid p Hp) as Hindex.
  unfold valid_index, Playlist.length in Hindex.
  intros Hempty. rewrite Hempty in Hindex. cbn in Hindex. lia.
Qed.

Lemma reachable_playback_valid_witness :
  valid_index (Playlist.mk 7 "Matinal" [13; 12; 11] 1 true true true).
Proof.
  refine (proj1 (reachable_playback_valid
                   (after (NextVideo env_offline)
                      (after (StartPlaylistStream env_accepting 7
                                (mkStartOptions None (Some true)))
                         initialStreamData))
                   _ _ eq_refl)).
  apply plausibly_final; [ | exact I ].
  apply plausibly_final; [ apply plausibly_initial | ].
  intros videos. cbn. apply Permutation_sym, Permutation_rev.
Defined.

(** ** More on the remote operations *)

(** X11: The failures of [startPlaylistStream] before the start request: no
    token, a lookup that cannot be sent, a playlist body that does not
    parse, and a video lookup that is not 2xx, which gives the load error.
    Each rejects with nothing committed. *)
Theorem startPlaylistStream_lookup_failures
    (env : Env) (playlistId : Z) (options : StartOptions) (s : StreamData.t) :
  let r := startPlaylistStream env playlistId options s in
  (forall e, getToken env = Rejected e -> r = mkRun (Rejected e) s [])
  /\ (forall token e,
         getToken env = Resolved token ->
         fetch_playlist env playlistId token = Rejected e ->
         r = mkRun (Rejected e) s [])
  /\ (forall token response e,
         getToken env = Resolved token ->
         fetch_playlist env playlistId token = Resolved response ->
         Api.ok response = true ->
         Api.json response = Rejected e ->
         r = mkRun (Rejected e) s [])
  /\ (forall token playlist response,
         getToken env = Resolved token ->
         fetch_playlist env playlistId token = respond playlist ->
         fetch_playlist_videos env playlistId token = Resolved response ->
         Api.ok response = false ->
         r = mkRun (Rejected (Error "Erro ao carregar vídeos da playlist"))
                   s []).
Proof.
  cbn zeta. rewrite startPlaylistStream_run.
  split; [ | split; [ | split ] ].
  - intros e Htoken. rewrite Htoken. reflexivity.
  - intros token e Htoken Hplaylist. rewrite Htoken, Hplaylist.
    reflexivity.
  - intros token response e Htoken Hplaylist Hok Hjson.
    rewrite Htoken, Hplaylist, Hok. cbn [negb]. rewrite Hjson. reflexivity.
  - intros token playlist response Htoken Hplaylist Hvideos Hok.
    rewrite Htoken, Hplaylist. unfold respond at 1.
    cbn [Api.ok Api.json negb]. rewrite Hvideos, Hok. reflexivity.
Qed.

Lemma startPlaylistStream_lookup_failures_witness :
  startPlaylistStream env_videos_unavailable 7 no_options playing_7
  = mkRun (Rejected (Error "Erro ao carregar vídeos da playlist")) playing_7 [].
Proof.
  destruct (startPlaylistStream_lookup_failures
              env_videos_unavailable 7 no_options playing_7)
    as (_ & _ & _ & Hvideos).
  exact (Hvideos "token"%string (Api.PlaylistInfo.mk "Matinal")
           (Api.mkResponse false (Rejected (SyntaxError "Unexpected token")))
           eq_refl eq_refl eq_refl eq_refl).
Defined.

(** X12: A successful stop after a successful start leaves the idle baseline of
    the snapshot the start found, but for the title, which stays the one of
    the playlist. *)
Theorem stop_after_start
    (env env' : Env) (playlistId : Z) (options : StartOptions)
    (s streamData : StreamData.t)
    (token : string) (playlist : Api.PlaylistInfo.t)
    (playlistVideos : list Api.PlaylistVideo.t)
    (status_ok : bool) (result : Api.StartResult.t)
    (stop_result : Api.StopResult.t) :
  playlist_loaded env playlistId token playlist playlistVideos ->
  playlistVideos <> [] ->
  fetch_start_internal env token
    (start_request env playlistId options playlist playlistVideos)
  = Resolved (Api.mkResponse status_ok (Resolved result)) ->
  Api.StartResult.success result = true ->
  stop_reply env' (StreamData.streamType streamData) = Resolved stop_result ->
  Api.StopResult.success stop_result = true ->
  final (stopStream env' streamData
           (final (startPlaylistStream env playlistId options s)))
  = StreamData.spread (stopped s)
      [StreamData.Title (Api.PlaylistInfo.nome playlist)].
Proof.
  intros Hloaded Hnonempty Hstart Hsuccess Hstop Hstopped.
  rewrite (startPlaylistStream_loaded _ _ _ _ _ _ _ Hloaded Hnonempty).
  cbn zeta. rewrite Hstart. cbn [Api.json]. rewrite Hsuccess.
  rewrite stopStream_run, Hstop, Hstopped. reflexivity.
Qed.

Lemma stop_after_start_witness :
  final (invoke (stopStream env_accepting) playing_7)
  = StreamData.spread initialStreamData [StreamData.Title "Matinal"].
Proof.
  exact (stop_after_start env_accepting env_accepting 7 no_options
           initialStreamData playing_7
           "token"%string (Api.PlaylistInfo.mk "Matinal")
           [Api.PlaylistVideo.mk 11; Api.PlaylistVideo.mk 12;
            Api.PlaylistVideo.mk 13]
           true
           (Api.StartResult.mk true (Some "rtmp://host/live/s7"%string)
              (Some "s7"%string) None)
           (Api.StopResult.mk true None)
           (conj eq_refl (conj eq_refl eq_refl))
           ltac:(discriminate) eq_refl eq_refl eq_refl eq_refl).
Defined.

(** X13: A status response that is successful, live and carries a transmission
    is overlaid: [isLive], the three statistics, the title and
    [wowzaStatus = online] are written in one update, and nothing else
    ([startTime], the playback state, the stream type, the stream URL and
    name, the duration, the platforms). *)
Theorem refreshStreamStatus_live
    (env : Env) (s : StreamData.t) (result : Api.StatusResult.t)
    (transmission : Api.Transmission.t) :
  status_reply env = Resolved result ->
  Api.StatusResult.success result = true ->
  Api.StatusResult.is_live result = true ->
  Api.StatusResult.transmission result = Some transmission ->
  let r := refreshStreamStatus env s in
  let s' := final r in
  r = mkRun (Resolved tt) (overlaid transmission s) [overlaid transmission s]
  /\ StreamData.isLive s' = true
  /\ StreamData.viewers s' = Api.Transmission.stats_viewers transmission
  /\ StreamData.bitrate s' = Api.Transmission.stats_bitrate transmission
  /\ StreamData.uptime s' = Api.Transmission.stats_uptime transmission
  /\ StreamData.title s' = Api.Transmission.titulo transmission
  /\ StreamData.wowzaStatus s' = StreamData.online
  /\ StreamData.startTime s' = StreamData.startTime s
  /\ StreamData.currentPlaylist s' = StreamData.currentPlaylist s
  /\ StreamData.streamType s' = StreamData.streamType s
  /\ StreamData.streamUrl s' = StreamData.streamUrl s
  /\ StreamData.streamName s' = StreamData.streamName s
  /\ StreamData.duration s' = StreamData.duration s
  /\ StreamData.platforms s' = StreamData.platforms s
  /\ StreamData.applicationName s' = StreamData.applicationName s.
Proof.
  intros Hreply Hsuccess Hlive Htransmission. cbn zeta.
  rewrite refreshStreamStatus_run, Hreply. cbn zeta.
  rewrite Hsuccess, Hlive, Htransmission. cbn. repeat split.
Qed.

Lemma refreshStreamStatus_live_witness :
  let s' := final (refreshStreamStatus env_accepting initialStreamData) in
  StreamData.viewers s' = 120
  /\ StreamData.bitrate s' = 3000
  /\ StreamData.uptime s' = "00:05:00"%string
  /\ StreamData.wowzaStatus s' = StreamData.online.
Proof.
  destruct (refreshStreamStatus_live env_accepting initialStreamData
              (Api.StatusResult.mk true true
                 (Some (Api.Transmission.mk "Matinal" 120 3000 "00:05:00")))
              (Api.Transmission.mk "Matinal" 120 3000 "00:05:00")
              eq_refl eq_refl eq_refl eq_refl)
    as (_ & _ & Hviewers & Hbitrate & Huptime & _ & Hstatus & _).
  repeat split; assumption.
Defined.

(** X14: Polling twice against the same answer is polling once. *)
Theorem refreshStreamStatus_idempotent (env : Env) (s : StreamData.t) :
  final (refreshStreamStatus env (final (refreshStreamStatus env s)))
  = final (refreshStreamStatus env s).
Proof.
  rewrite !refreshStreamStatus_run.
  destruct (status_reply env) as [result | e]; cbn zeta.
  - destruct (if Api.StatusResult.success result
                 && Api.StatusResult.is_live result
              then Api.StatusResult.transmission result
              else None); reflexivity.
  - reflexivity.
Qed.

(** ** The timers *)

Lemma string_length_append (a b : string) :
  String.length (a ++ b) = (String.length a + String.length b)%nat.
Proof. induction a as [ | c a IH ]; cbn; [ | rewrite IH ]; reflexivity. Qed.

(** Two digits for the numbers below one hundred. *)
Lemma pad_two_digits (n : Z) :
  0 <= n < 100 -> String.length (padStart_0 2 (toString n)) = 2%nat.
Proof.
  intros Hn.
  assert (Hk : exists k, (k < 100)%nat /\ n = Z.of_nat k)
    by (exists (Z.to_nat n); lia).
  destruct Hk as (k & Hk & ->).
  do 100 (destruct k as [ | k ]; [ reflexivity | ]).
  lia.
Qed.

(** The update of the ticker, with the clock read off the duration. *)
Lemma elapsed_time_ticker_run
    (now : Date) (s : StreamData.t) (startTime : Date) :
  StreamData.isLive s = true ->
  StreamData.startTime s = Some startTime ->
  startTime <= now ->
  let duration := (now - startTime) / 1000 in
  final (invoke (elapsed_time_ticker now) s)
  = StreamData.spread s
      [ StreamData.Uptime
          (clock (duration / 3600) ((duration / 60) mod 60) (duration mod 60));
        StreamData.Duration duration ].
Proof.
  intros Hlive Hstart Hle. unfold invoke, elapsed_time_ticker.
  rewrite Hlive, Hstart. cbn zeta.
  cbn [updateStreamData setStreamData final].
  set (diff := now - startTime).
  assert (Hdiff : 0 <= diff) by (unfold diff; lia).
  change (1000 * 60 * 60) with 3600000. change (1000 * 60) with 60000.
  rewrite !Z.rem_mod_nonneg by lia.
  assert (Hhours : diff / 3600000 = diff / 1000 / 3600)
    by (rewrite Z.div_div by lia; reflexivity).
  assert (Hminutes : diff mod 3600000 / 60000 = (diff / 1000 / 60) mod 60)
    by (Z.div_mod_to_equations; lia).
  assert (Hseconds : diff mod 60000 / 1000 = (diff / 1000) mod 60)
    by (Z.div_mod_to_equations; lia).
  rewrite Hhours, Hminutes, Hseconds. reflexivity.
Qed.

(** X15: The ticker, from a date not before [startTime]: [duration] is the whole
    number of seconds elapsed, [uptime] is that duration written as hours,
    minutes below 60 and seconds below 60, and no other field changes. *)
Theorem elapsed_time_ticker_shows_duration
    (now : Date) (s : StreamData.t) (startTime : Date) :
  StreamData.isLive s = true ->
  StreamData.startTime s = Some startTime ->
  startTime <= now ->
  let s' := final (invoke (elapsed_time_ticker now) s) in
  let duration := StreamData.duration s' in
  duration = (now - startTime) / 1000
  /\ StreamData.uptime s'
     = clock (duration / 3600) ((duration / 60) mod 60) (duration mod 60)
  /\ 3600 * (duration / 3600) + 60 * ((duration / 60) mod 60)
     + duration mod 60 = duration
  /\ s' = StreamData.spread s
            [ StreamData.Uptime (StreamData.uptime s');
              StreamData.Duration duration ].
Proof.
  intros Hlive Hstart Hle. cbn zeta.
  rewrite (elapsed_time_ticker_run now s startTime Hlive Hstart Hle).
  cbn zeta. cbn [StreamData.spread fold_left StreamData.assign
                 StreamData.uptime StreamData.duration].
  split; [ reflexivity | split; [ reflexivity | split ] ].
  - Z.div_mod_to_equations; lia.
  - reflexivity.
Qed.

Lemma elapsed_time_ticker_shows_duration_witness :
  let s' := final (invoke (elapsed_time_ticker 1700003725500) playing_7) in
  StreamData.duration s' = 3725
  /\ StreamData.uptime s' = "01:02:05"%string.
Proof.
  destruct (elapsed_time_ticker_shows_duration 1700003725500 playing_7
              1700000000000 eq_refl eq_refl ltac:(lia))
    as (Hduration & Huptime & _).
  cbn zeta. split; [ exact Hduration | exact Huptime ].
Defined.

(** X16: Below one hundred hours the ticker's [uptime] has the eight characters
    of [HH:MM:SS]. *)
Theorem elapsed_time_ticker_clock_width
    (now : Date) (s : StreamData.t) (startTime : Date) :
  StreamData.isLive s = true ->
  StreamData.startTime s = Some startTime ->
  0 <= now - startTime < 100 * 60 * 60 * 1000 ->
  String.length
    (StreamData.uptime (final (invoke (elapsed_time_ticker now) s)))
  = 8%nat.
Proof.
  intros Hlive Hstart Hrange. unfold invoke, elapsed_time_ticker.
  rewrite Hlive, Hstart. cbn zeta.
  cbn [updateStreamData setStreamData final StreamData.spread fold_left
       StreamData.assign StreamData.uptime].
  set (diff := now - startTime) in *.
  change (1000 * 60 * 60) with 3600000. change (1000 * 60) with 60000.
  change (100 * 60 * 60 * 1000) with 360000000 in Hrange.
  rewrite !Z.rem_mod_nonneg by lia.
  unfold clock. rewrite !string_length_append.
  rewrite !pad_two_digits; [ reflexivity | | | ];
    Z.div_mod_to_equations; lia.
Qed.

Lemma elapsed_time_ticker_clock_width_witness :
  String.length
    (StreamData.uptime
       (final (invoke (elapsed_time_ticker 1700003725500) playing_7)))
  = 8%nat.
Proof.
  apply (elapsed_time_ticker_clock_width 1700003725500 playing_7
           1700000000000 eq_refl eq_refl).
  lia.
Defined.

(** X17: A poll answered not-live stops both timers for good: from the snapshot
    it leaves, no later firing of the poller or of the ticker commits
    anything, whatever the server would then report. *)
Theorem not_live_poll_stops_timers
    (env : Env) (s : StreamData.t) (result : Api.StatusResult.t) :
  StreamData.isLive s = true ->
  status_reply env = Resolved result ->
  Api.StatusResult.is_live result = false ->
  let s' := final (invoke (status_poller env) s) in
  s' = forced_offline s
  /\ (forall env', invoke (status_poller env') s' = mkRun (Resolved tt) s' [])
  /\ (forall now,
         invoke (elapsed_time_ticker now) s' = mkRun (Resolved tt) s' []).
Proof.
  intros Hlive Hreply Hnot_live. cbn zeta.
  assert (Hs' : final (invoke (status_poller env) s) = forced_offline s).
  { unfold invoke, status_poller. rewrite Hlive. cbn [negb].
    rewrite refreshStreamStatus_run, Hreply. cbn zeta.
    rewrite Hnot_live, andb_false_r. reflexivity. }
  rewrite Hs'. split; [ reflexivity | split ].
  - intros env'. reflexivity.
  - intros now. reflexivity.
Qed.

Lemma not_live_poll_stops_timers_witness :
  let s' := final (invoke (status_poller env_refusing) playing_7) in
  StreamData.isLive s' = false
  /\ invoke (status_poller env_accepting) s' = mkRun (Resolved tt) s' [].
Proof.
  destruct (not_live_poll_stops_timers env_refusing playing_7
              (Api.StatusResult.mk true false None) eq_refl eq_refl eq_refl)
    as (Hs' & Hpoller & _).
  cbn zeta. split; [ rewrite Hs'; reflexivity | apply Hpoller ].
Defined.

(** X18: A poll that fails leaves the poller running: the snapshot stays live
    with [wowzaStatus = error], the next firing polls again, and a live
    answer then puts [wowzaStatus] back to [online]. *)
Theorem failed_poll_keeps_polling
    (env env' : Env) (s : StreamData.t) (e : Exn)
    (result : Api.StatusResult.t) (transmission : Api.Transmission.t) :
  StreamData.isLive s = true ->
  status_reply env = Rejected e ->
  status_reply env' = Resolved result ->
  Api.StatusResult.success result = true ->
  Api.StatusResult.is_live result = true ->
  Api.StatusResult.transmission result = Some transmission ->
  let s' := final (invoke (status_poller env) s) in
  StreamData.isLive s' = true
  /\ StreamData.wowzaStatus s' = StreamData.error
  /\ invoke (status_poller env') s' = refreshStreamStatus env' s'
  /\ final (invoke (status_poller env') s') = overlaid transmission s.
Proof.
  intros Hlive Hreply Hreply' Hsuccess Hlive' Htransmission. cbn zeta.
  assert (Hs' : final (invoke (status_poller env) s)
                = StreamData.spread s
                    [StreamData.WowzaStatus_ StreamData.error]).
  { unfold invoke, status_poller. rewrite Hlive. cbn [negb].
    rewrite refreshStreamStatus_run, Hreply. reflexivity. }
  rewrite Hs'.
  assert (Hagain :
    invoke (status_poller env')
      (StreamData.spread s [StreamData.WowzaStatus_ StreamData.error])
    = refreshStreamStatus env'
        (StreamData.spread s [StreamData.WowzaStatus_ StreamData.error])).
  { unfold invoke, status_poller. cbn. rewrite Hlive. reflexivity. }
  split; [ exact Hlive | split; [ reflexivity | split; [ exact Hagain | ] ] ].
  rewrite Hagain, refreshStreamStatus_run, Hreply'. cbn zeta.
  rewrite Hsuccess, Hlive', Htransmission. reflexivity.
Qed.

Lemma failed_poll_keeps_polling_witness :
  let s' := final (invoke (status_poller env_offline) playing_7) in
  StreamData.wowzaStatus s' = StreamData.error
  /\ StreamData.wowzaStatus (final (invoke (status_poller env_accepting) s'))
     = StreamData.online.
Proof.
  destruct (failed_poll_keeps_polling env_offline env_accepting playing_7
              (TypeError "Failed to fetch")
              (Api.StatusResult.mk true true
                 (Some (Api.Transmission.mk "Matinal" 120 3000 "00:05:00")))
              (Api.Transmission.mk "Matinal" 120 3000 "00:05:00")
              eq_refl eq_refl eq_refl eq_refl eq_refl eq_refl)
    as (_ & Herror & _ & Hrecovered).
  cbn zeta. split; [ exact Herror | rewrite Hrecovered; reflexivity ].
Defined.

(** X19: The server's uptime lasts until the next tick when the session was
    started here, and for good when it was not: with a [startTime] the
    ticker replaces the polled uptime by its own clock, without one it
    commits nothing. *)
Theorem ticker_after_live_poll
    (env : Env) (now : Date) (s : StreamData.t)
    (result : Api.StatusResult.t) (transmission : Api.Transmission.t) :
  status_reply env = Resolved result ->
  Api.StatusResult.success result = true ->
  Api.StatusResult.is_live result = true ->
  Api.StatusResult.transmission result = Some transmission ->
  let polled := final (refreshStreamStatus env s) in
  StreamData.uptime polled = Api.Transmission.stats_uptime transmission
  /\ (StreamData.startTime s = None ->
      invoke (elapsed_time_ticker now) polled = mkRun (Resolved tt) polled [])
  /\ (forall startTime,
         StreamData.startTime s = Some startTime ->
         startTime <= now ->
         let duration := (now - startTime) / 1000 in
         StreamData.uptime (final (invoke (elapsed_time_ticker now) polled))
         = clock (duration / 3600) ((duration / 60) mod 60) (duration mod 60)).
Proof.
  intros Hreply Hsuccess Hlive Htransmission. cbn zeta.
  assert (Hpolled : final (refreshStreamStatus env s) = overlaid transmission s).
  { rewrite refreshStreamStatus_run, Hreply. cbn zeta.
    rewrite Hsuccess, Hlive, Htransmission. reflexivity. }
  rewrite Hpolled. split; [ reflexivity | split ].
  - intros Hnone. unfold invoke, elapsed_time_ticker. cbn.
    rewrite Hnone. reflexivity.
  - intros startTime Hstart Hle.
    assert (Hstart' : StreamData.startTime (overlaid transmission s)
                      = Some startTime) by exact Hstart.
    rewrite (elapsed_time_ticker_run now (overlaid transmission s)
               startTime eq_refl Hstart' Hle).
    reflexivity.
Qed.

Lemma ticker_after_live_poll_witness :
  StreamData.uptime (final (refreshStreamStatus env_accepting playing_7))
  = "00:05:00"%string
  /\ StreamData.uptime
       (final (invoke (elapsed_time_ticker 1700000061000)
                 (final (refreshStreamStatus env_accepting playing_7))))
     = "00:01:01"%string
  /\ invoke (elapsed_time_ticker 1700000061000) joined_live_stream
     = mkRun (Resolved tt) joined_live_stream [].
Proof.
  destruct (ticker_after_live_poll env_accepting 1700000061000 playing_7
              (Api.StatusResult.mk true true
                 (Some (Api.Transmission.mk "Matinal" 120 3000 "00:05:00")))
              (Api.Transmission.mk "Matinal" 120 3000 "00:05:00")
              eq_refl eq_refl eq_refl eq_refl)
    as (Hpolled & _ & Hticked).
  destruct (ticker_after_live_poll env_accepting 1700000061000
              initialStreamData
              (Api.StatusResult.mk true true
                 (Some (Api.Transmission.mk "Matinal" 120 3000 "00:05:00")))
              (Api.Transmission.mk "Matinal" 120 3000 "00:05:00")
              eq_refl eq_refl eq_refl eq_refl)
    as (_ & Hjoined & _).
  split; [ exact Hpolled | split ].
  - exact (Hticked 1700000000000 eq_refl ltac:(lia)).
  - exact (Hjoined eq_refl).
Defined.
